(** * The Ogg Opus streaming decoder of audio/decoders/opus.cpp

    A shallow embedding of the decoder adapter: the byte-source callbacks
    handed to libopusfile, the error translator, the [OpusStream] class
    (constructor, [readBuffer], [seek], [_fillBuffer], accessors) and the
    factory [makeOpusStream].

    Conventions.
    - C integers are [Z] with the conversions written out ([to_int32],
      [to_uint32], [to_byte]).
    - [_pos] and [_bufferEnd] point into [_buffer]; they are modelled by
      their element offset from [_buffer], as on a flat 64-bit address
      space (no wrap-around of the pointer itself).
    - libopusfile is not part of the repository.  An [OggOpusFile] handle
      is modelled by what the library will report through it: the channel
      count, the total frame count, the finite trace of results of the
      coming [op_read] calls and the outcome of [op_pcm_seek] at every
      frame index.
    - [warning] writes to the console; the text emitted so far is kept in
      the [_console] component of the modelled state. *)

From Stdlib Require Import ZArith List String Bool Lia.
From Stdlib Require Import Strings.Byte Ascii DecimalString.
Import ListNotations.
Local Open Scope Z_scope.

(** ** Machine integers *)

Module CInt.

Definition two32 : Z := 4294967296.
Definition two31 : Z := 2147483648.

(** Conversion to [unsigned int] / [uint32]. *)
Definition to_uint32 (x : Z) : Z := x mod two32.

(** Conversion to [int] / [int32]. *)
Definition to_int32 (x : Z) : Z :=
  let r := x mod two32 in if r <? two31 then r else r - two32.

(** Conversion to [byte] (an 8-bit unsigned integer). *)
Definition to_byte (x : Z) : Z := x mod 256.

(** The [MIN] macro of common/util.h. *)
Definition MIN (a b : Z) : Z := if a <? b then a else b.

End CInt.
Import CInt.

(** ** Error Translator *)

(** Status codes of opusfile.h (the library header; values as published
    by libopusfile). *)
Definition OP_FALSE : Z := -1.
Definition OP_EOF : Z := -2.
Definition OP_HOLE : Z := -3.
Definition OP_EREAD : Z := -128.
Definition OP_EFAULT : Z := -129.
Definition OP_EIMPL : Z := -130.
Definition OP_EINVAL : Z := -131.
Definition OP_ENOTFORMAT : Z := -132.
Definition OP_EBADHEADER : Z := -133.
Definition OP_EVERSION : Z := -134.
Definition OP_ENOTAUDIO : Z := -135.
Definition OP_EBADPACKET : Z := -136.
Definition OP_EBADLINK : Z := -137.
Definition OP_ENOSEEK : Z := -138.
Definition OP_EBADTIMESTAMP : Z := -139.

(** The codes [opusError] has a [case] for. *)
Definition listed_codes : list Z :=
  [ OP_FALSE; OP_HOLE; OP_EREAD; OP_EFAULT; OP_EIMPL; OP_EINVAL;
    OP_ENOTFORMAT; OP_EBADHEADER; OP_EVERSION; OP_ENOTAUDIO; OP_EBADPACKET;
    OP_EBADLINK; OP_ENOSEEK; OP_EBADTIMESTAMP ].

Definition opusError (errnum : Z) : string :=
  if errnum =? OP_FALSE then "Request did not succeed"
  else if errnum =? OP_HOLE then
    "There was a hole in the data and some samples may have been skipped"
  else if errnum =? OP_EREAD then
    "An underlying read, seek, or tell operation failed"
  else if errnum =? OP_EFAULT then
    "Internal memory allocation or library error"
  else if errnum =? OP_EIMPL then "Unimplemented feature used in stream"
  else if errnum =? OP_EINVAL then
    "One or more parameters to a function were invalid"
  else if errnum =? OP_ENOTFORMAT then "Invalid Ogg Opus stream"
  else if errnum =? OP_EBADHEADER then "Invalid Ogg Opus stream"
  else if errnum =? OP_EVERSION then "Unrecognized version number in header"
  else if errnum =? OP_ENOTAUDIO then "Unknown error"
  else if errnum =? OP_EBADPACKET then "Failed to decode audio packet"
  else if errnum =? OP_EBADLINK then "Seeking error"
  else if errnum =? OP_ENOSEEK then "Non-seekable stream"
  else if errnum =? OP_EBADTIMESTAMP then
    "Validity checks failed for first or last timestamp in a link"
  else "Unknown error".

(** ** Byte Source and its adapter *)

(** The interface of Common::SeekableReadStream the adapter uses.  The
    class is declared in common/stream.h; a stream is a value of [Src] and
    every operation returns the stream it leaves behind. *)
Class SeekableReadStream (Src : Type) : Type := {
  (** [read(ptr, n)]: the number of bytes read, the bytes stored at
      [ptr], the stream afterwards. *)
  stream_read : Src -> Z -> Z * list byte * Src;
  (** [seek(offset, whence)]: success, the stream afterwards. *)
  stream_seek : Src -> Z -> Z -> bool * Src;
  (** [pos()]: the current byte offset. *)
  stream_pos : Src -> Z
}.

Section Adapter.
Context {Src : Type} `{SeekableReadStream Src}.

Definition read_stream_callback (_stream : Src) (_nbytes : Z)
  : Z * list byte * Src :=
  let '(result, bytes, stream') := stream_read _stream _nbytes in
  (to_int32 (to_uint32 result), bytes, stream').

Definition seek_stream_callback (_stream : Src) (_offset _whence : Z)
  : Z * Src :=
  let '(ok, stream') := stream_seek _stream (to_int32 _offset) _whence in
  ((if ok then 0 else -1), stream').

Definition tell_stream_callback (_stream : Src) : Z :=
  stream_pos _stream.

Definition close_stream_callback (_stream : Src) : Z * Src :=
  (0, _stream).

End Adapter.

(** The callback table libopusfile is given. *)
Record OpusFileCallbacks (Src : Type) : Type := mkCallbacks {
  cb_read : Src -> Z -> Z * list byte * Src;
  cb_seek : Src -> Z -> Z -> Z * Src;
  cb_tell : Src -> Z;
  cb_close : Src -> Z * Src
}.
Arguments mkCallbacks {Src}.
Arguments cb_read {Src}.
Arguments cb_seek {Src}.
Arguments cb_tell {Src}.
Arguments cb_close {Src}.

Definition g_stream_callbacks {Src : Type} `{SeekableReadStream Src}
  : OpusFileCallbacks Src :=
  mkCallbacks read_stream_callback seek_stream_callback
              tell_stream_callback close_stream_callback.

(** ** The codec handle *)

(** What one [op_read] call reports: its return value (samples per
    channel, 0 at the end of the stream, or a negative status code) and
    the interleaved samples it stored at the address it was given. *)
Record op_event : Type := mkEvent {
  ev_result : Z;
  ev_pcm : list Z
}.

Record OggOpusFile : Type := mkFile {
  of_channel_count : Z;
  of_pcm_total : Z;
  (** results of the coming [op_read] calls; past its end the stream is
      over and [op_read] returns 0 *)
  of_pending : list op_event;
  (** [op_pcm_seek] at a frame index: its status and the trace that
      [op_read] follows afterwards *)
  of_seek : Z -> Z * list op_event
}.

Definition with_pending (f : OggOpusFile) (p : list op_event) : OggOpusFile :=
  mkFile (of_channel_count f) (of_pcm_total f) p (of_seek f).

Definition op_channel_count (f : OggOpusFile) (_li : Z) : Z :=
  of_channel_count f.

Definition op_pcm_total (f : OggOpusFile) (_li : Z) : Z :=
  of_pcm_total f.

Definition op_read (f : OggOpusFile) (_buf_size : Z)
  : Z * list Z * OggOpusFile :=
  match of_pending f with
  | [] => (0, [], f)
  | e :: rest => (ev_result e, ev_pcm e, with_pending f rest)
  end.

Definition op_pcm_seek (f : OggOpusFile) (_pcm_offset : Z)
  : Z * OggOpusFile :=
  let '(result, p) := of_seek f _pcm_offset in (result, with_pending f p).

(** ** Position/Duration *)

(** Modelled from the spec: Audio::Timestamp (audio/timestamp.h) is
    missing; a position or duration is "a dual representation of (time
    value, reference rate)".  [mkTimestamp ms fr] stands for the
    constructor call [Timestamp(ms, fr)]. *)
Record Timestamp : Type := mkTimestamp {
  ts_msecs : Z;
  ts_framerate : Z
}.

(** ** Sample Buffer *)

(** [sizeof(_buffer)/sizeof( *_buffer)] for [opus_int16 _buffer[120*48*2]]. *)
Definition bufferSize : Z := 120 * 48 * 2.

(** [op_read] storing [pcm] at [_buffer + off].  Samples that would land
    past the end of the array (a buffer overflow in C) are dropped. *)
Definition store (buf : list Z) (off : Z) (pcm : list Z) : list Z :=
  firstn (List.length buf)
         (firstn (Z.to_nat off) buf ++ pcm
            ++ skipn (Z.to_nat off + List.length pcm) buf).

(** [memcpy(dst, _buffer + off, len * 2)]: the [len] samples found from
    offset [off] on.  A cell past the array (undefined in C) reads as 0. *)
Definition fetch (buf : list Z) (off len : Z) : list Z :=
  let got := firstn (Z.to_nat len) (skipn (Z.to_nat off) buf) in
  got ++ repeat 0 (Z.to_nat len - List.length got).

(** ** Streaming Decoder *)

Record OpusStream : Type := mkOpusStream {
  _channels : Z;
  _rate : Z;
  _length : Timestamp;
  _file : OggOpusFile;
  _buffer : list Z;
  _bufferEnd : Z;
  _pos : Z;
  (** not a member: the warnings printed so far, oldest first *)
  _console : list string
}.

Definition endOfData (s : OpusStream) : bool := _bufferEnd s <=? _pos s.
Definition isStereo (s : OpusStream) : bool := 2 <=? _channels s.
Definition getRate (s : OpusStream) : Z := _rate s.
Definition getLength (s : OpusStream) : Timestamp := _length s.

Definition warning (fmt : string) (arg : string) : string :=
  (fmt ++ arg)%string.

(** What the body of the fill loop decides once [op_read] has returned. *)
Inductive loop_ctl : Type :=
| Abort                     (* [_pos = _bufferEnd; return false] *)
| Break                     (* [result == 0] *)
| Continue (samplesRead : Z).

Definition after_read (channels samplesRead result : Z) : loop_ctl :=
  if (result <? 0) && negb (result =? OP_HOLE) then Abort
  else if result =? 0 then Break
  else Continue (to_uint32 (samplesRead + result * channels)).

Definition read_warning (result : Z) : list string :=
  if result <? 0
  then [warning "Error reading from Opus stream: " (opusError result)]
  else [].

(** What the fill loop prints when [op_read] reports a hole. *)
Definition hole_warning : string :=
  warning "Error reading from Opus stream: " (opusError OP_HOLE).

Record fill_state : Type := mkFill {
  fill_ok : bool;
  fill_samplesRead : Z;
  fill_buffer : list Z;
  fill_pending : list op_event;
  fill_console : list string
}.

(** The [while (samplesRead < bufferSize)] loop of [_fillBuffer], by
    recursion on the trace of the handle: every iteration makes one
    [op_read] call, which takes one event off the trace, and an exhausted
    trace makes [op_read] return 0. *)
Fixpoint fill_loop (channels : Z) (pending : list op_event)
    (buf : list Z) (console : list string) (samplesRead : Z) : fill_state :=
  if samplesRead <? bufferSize then
    match pending with
    | [] => mkFill true samplesRead buf [] console
    | e :: rest =>
        let result := ev_result e in
        let buf' := store buf samplesRead (ev_pcm e) in
        let console' := console ++ read_warning result in
        match after_read channels samplesRead result with
        | Abort => mkFill false samplesRead buf' rest console'
        | Break => mkFill true samplesRead buf' rest console'
        | Continue samplesRead' =>
            fill_loop channels rest buf' console' samplesRead'
        end
    end
  else mkFill true samplesRead buf pending console.

Definition _fillBuffer (s : OpusStream) : bool * OpusStream :=
  let r := fill_loop (_channels s) (of_pending (_file s)) (_buffer s)
                     (_console s) 0 in
  let file' := with_pending (_file s) (fill_pending r) in
  if fill_ok r
  then (true, mkOpusStream (_channels s) (_rate s) (_length s) file'
                (fill_buffer r) (0 + fill_samplesRead r) 0 (fill_console r))
  else (false, mkOpusStream (_channels s) (_rate s) (_length s) file'
                 (fill_buffer r) (_bufferEnd s) (_bufferEnd s)
                 (fill_console r)).

(** How a call ends. *)
Inductive outcome (A : Type) : Type :=
| Done (a : A)       (* the call returns *)
| Fault              (* [memcpy] is asked for a negative length *)
| NoProgress.        (* the loop has not ended within the fuel *)
Arguments Done {A}.
Arguments Fault {A}.
Arguments NoProgress {A}.

(** The [while] loop of [readBuffer]: [out] collects what has been copied
    to the destination.  An iteration that is followed by another one has
    emptied the buffer and refilled it, which takes at least one event off
    the trace of the handle, so a call makes at most one iteration more
    than the trace is long; only with [len == 0], where nothing changes
    and the loop spins, is the fuel used up (lemma [readBuffer_progress]). *)
Fixpoint read_loop (fuel : nat) (s : OpusStream) (numSamples : Z)
    (samples : Z) (out : list Z) : outcome (Z * list Z * OpusStream) :=
  if (samples <? numSamples) && (_pos s <? _bufferEnd s) then
    match fuel with
    | O => NoProgress
    | S fuel' =>
        let len := MIN (numSamples - samples)
                       (to_int32 (_bufferEnd s - _pos s)) in
        if len <? 0 then Fault
        else
          let out' := out ++ fetch (_buffer s) (_pos s) len in
          let s1 := mkOpusStream (_channels s) (_rate s) (_length s)
                      (_file s) (_buffer s) (_bufferEnd s) (_pos s + len)
                      (_console s) in
          let samples' := samples + len in
          if _bufferEnd s1 <=? _pos s1 then
            let '(ok, s2) := _fillBuffer s1 in
            if ok then read_loop fuel' s2 numSamples samples' out'
            else Done (samples', out', s2)
          else read_loop fuel' s1 numSamples samples' out'
    end
  else Done (samples, out, s).

Definition readBuffer (s : OpusStream) (numSamples : Z)
  : outcome (Z * list Z * OpusStream) :=
  read_loop (S (List.length (of_pending (_file s)))) s numSamples 0 [].

Section Decoder.
Context {Src : Type} `{SeekableReadStream Src}.

(** libopusfile's [op_open_callbacks(source, callbacks, NULL, 0, &error)]:
    the status stored in [error] and the handle returned. *)
Variable op_open_callbacks : Src -> OpusFileCallbacks Src -> Z * OggOpusFile.

(** [convertTimeToStreamPos] (audio/audiostream.cpp) and
    [Timestamp::totalNumberOfFrames] are declared outside the sources at
    hand. *)
Variable convertTimeToStreamPos : Timestamp -> Z -> bool -> Timestamp.
Variable totalNumberOfFrames : Timestamp -> Z.

(** The constructor.  [mem] is the storage the object is built in: the
    members the constructor does not assign keep what [mem] holds. *)
Definition OpusStream_new (mem : OpusStream) (inStream : Src) : OpusStream :=
  let s0 := mkOpusStream (_channels mem) (_rate mem) (mkTimestamp 0 1000)
              (_file mem) (_buffer mem) bufferSize (_pos mem)
              (_console mem) in
  let '(result, file) := op_open_callbacks inStream g_stream_callbacks in
  if result <? 0 then
    mkOpusStream (_channels s0) (_rate s0) (_length s0) file (_buffer s0)
      (_bufferEnd s0) (_bufferEnd s0)
      (_console s0 ++ [warning "Could not create Opus stream: "
                               (opusError result)])
  else
    let s1 := mkOpusStream (to_byte (op_channel_count file (-1))) 48000
                (_length s0) file (_buffer s0) (_bufferEnd s0) (_pos s0)
                (_console s0) in
    let '(ok, s2) := _fillBuffer s1 in
    if negb ok then s2
    else
      (* [ogg_int64_t _pcmLength]; [opusError] takes an [int] *)
      let _pcmLength := op_pcm_total (_file s2) (-1) in
      let console' :=
        if _pcmLength <? 0
        then _console s2
               ++ [warning "Could not determine length of Opus stream: "
                           (opusError (to_int32 _pcmLength))]
        else _console s2 in
      mkOpusStream (_channels s2) (_rate s2)
        (mkTimestamp (Z.quot _pcmLength (_rate s2) * 1000) (_rate s2))
        (_file s2) (_buffer s2) (_bufferEnd s2) (_pos s2) console'.

Definition seek (s : OpusStream) (where_ : Timestamp) : bool * OpusStream :=
  let '(result, file') :=
    op_pcm_seek (_file s)
      (totalNumberOfFrames (convertTimeToStreamPos where_ (getRate s) false)) in
  if result <? 0 then
    (false,
     mkOpusStream (_channels s) (_rate s) (_length s) file' (_buffer s)
       (_bufferEnd s) (_bufferEnd s)
       (_console s ++ [warning "Error seeking in Opus stream: "
                               (opusError result)]))
  else
    _fillBuffer (mkOpusStream (_channels s) (_rate s) (_length s) file'
                   (_buffer s) (_bufferEnd s) (_pos s) (_console s)).

(** The factory; [None] is the null pointer. *)
Definition makeOpusStream (mem : OpusStream) (stream : Src)
  : option OpusStream :=
  let s := OpusStream_new mem stream in
  if endOfData s then None else Some s.

End Decoder.

(** The object as the constructor has it when the first fill starts. *)
Definition before_first_fill (mem : OpusStream) (file : OggOpusFile)
  : OpusStream :=
  mkOpusStream (to_byte (op_channel_count file (-1))) 48000
               (mkTimestamp 0 1000) file (_buffer mem) bufferSize
               (_pos mem) (_console mem).

(** ** Concrete collaborators for the examples *)

Module Demo.

(** A byte source over a block of memory. *)
Record ByteBuffer : Type := mkByteBuffer {
  bb_data : list byte;
  bb_pos : Z
}.

Definition bb_size (b : ByteBuffer) : Z := Z.of_nat (List.length (bb_data b)).

Definition bb_read (b : ByteBuffer) (n : Z) : Z * list byte * ByteBuffer :=
  let got := firstn (Z.to_nat n) (skipn (Z.to_nat (bb_pos b)) (bb_data b)) in
  let k := Z.of_nat (List.length got) in
  (k, got, mkByteBuffer (bb_data b) (bb_pos b + k)).

(** [whence]: 0 from the start, 1 from the current offset, 2 from the
    end. *)
Definition bb_seek (b : ByteBuffer) (offset whence : Z) : bool * ByteBuffer :=
  let target :=
    if whence =? 0 then offset
    else if whence =? 1 then bb_pos b + offset
    else bb_size b + offset in
  if (0 <=? target) && (target <=? bb_size b) && (whence <=? 2)
     && (0 <=? whence)
  then (true, mkByteBuffer (bb_data b) target)
  else (false, b).

#[global] Instance ByteBuffer_stream : SeekableReadStream ByteBuffer := {
  stream_read := bb_read;
  stream_seek := bb_seek;
  stream_pos := bb_pos
}.

Definition OggS : list byte := [x4f; x67; x67; x53].

Definition bytes_eqb (a b : list byte) : bool :=
  if list_eq_dec Byte.byte_eq_dec a b then true else false.

(** A stand-in for the library's open: it pulls the capture pattern
    through the read callback and, when it is there, hands out the
    handle [f]. *)
Definition open_oggs (f : OggOpusFile) (src : ByteBuffer)
    (cb : OpusFileCallbacks ByteBuffer) : Z * OggOpusFile :=
  let '(n, bytes, _) := cb_read cb src 4 in
  if (n =? 4) && bytes_eqb bytes OggS then (0, f) else (OP_ENOTFORMAT, f).

(** Time to frames with the time value in milliseconds. *)
Definition convert_ms (t : Timestamp) (rate : Z) (_stereo : bool) : Timestamp :=
  mkTimestamp (ts_msecs t) rate.
Definition frames_ms (t : Timestamp) : Z :=
  Z.quot (ts_msecs t * ts_framerate t) 1000.

(** A decoded packet of [n] frames for [ch] channels, every sample [v]. *)
Definition packet (ch n v : Z) : op_event :=
  mkEvent n (repeat v (Z.to_nat (n * ch))).

Definition hole : op_event := mkEvent OP_HOLE [].
Definition bad_packet : op_event := mkEvent OP_EBADPACKET [].

(** A handle on which every seek fails. *)
Definition no_seek (ch total : Z) (trace : list op_event) : OggOpusFile :=
  mkFile ch total trace (fun _ => (OP_ENOSEEK, [])).

(** A handle on which a seek to frame 0 restarts [trace] and every other
    seek fails. *)
Definition rewindable (ch total : Z) (trace : list op_event) : OggOpusFile :=
  mkFile ch total trace
         (fun off => if off =? 0 then (0, trace) else (OP_EBADLINK, [])).

(** Storage before construction: nothing in it is meaningful. *)
Definition raw : OpusStream :=
  mkOpusStream 77 123 (mkTimestamp 5 7) (no_seek 0 0 [])
               (repeat 0 (Z.to_nat bufferSize)) 3 9 [].

Definition good_source : ByteBuffer := mkByteBuffer (OggS ++ [x00; x02]) 0.
Definition bad_source : ByteBuffer := mkByteBuffer [x52; x49; x46; x46] 0.

(** Stereo, 500 ms: 25 packets of 20 ms (960 frames) each. *)
Definition half_second : OggOpusFile :=
  rewindable 2 24000 (repeat (packet 2 960 5) 25).

(** Stereo, the first decode call reports a hole, three packets follow. *)
Definition hole_first : OggOpusFile :=
  no_seek 2 2880 (hole :: repeat (packet 2 960 5) 3).

Definition open_stream (f : OggOpusFile) (src : ByteBuffer) : OpusStream :=
  OpusStream_new (open_oggs f) raw src.


(** Stereo: a packet, a hole, a packet. *)
Definition hole_between : OggOpusFile :=
  no_seek 2 1920 [packet 2 960 5; hole; packet 2 960 6].

(** Stereo: a packet, a packet that cannot be decoded, a packet. *)
Definition bad_between : OggOpusFile :=
  no_seek 2 1920 [packet 2 960 5; bad_packet; packet 2 960 6].

(** Stereo, one packet, no total frame count to be had. *)
Definition no_total : OggOpusFile :=
  no_seek 2 OP_EINVAL [packet 2 960 5].

End Demo.

(** ** Well-behaved traces and valid decoders *)

(** The interleaved samples a trace announces for [ch] channels. *)
Definition total (ch : Z) (tr : list op_event) : Z :=
  fold_right (fun e acc => ev_result e * ch + acc) 0 tr.

(** The trace of a stream without errors whose every [op_read] keeps to
    the room it is given: [filled] samples are in the buffer when the
    first event is reported; each event is a positive count that fits the
    rest of the buffer, with as many samples stored as announced; once the
    buffer is full the next event belongs to the next fill. *)
Fixpoint clean (ch filled : Z) (tr : list op_event) : bool :=
  match tr with
  | [] => true
  | e :: rest =>
      let n' := filled + ev_result e * ch in
      (0 <? ev_result e) && (n' <=? bufferSize)
      && (Z.of_nat (List.length (ev_pcm e)) =? ev_result e * ch)
      && clean ch (if n' <? bufferSize then n' else 0) rest
  end.

(** A decoder in working order: a channel count, the cursor and the end
    within the buffer, a well-behaved stream behind it. *)
Definition valid (s : OpusStream) : Prop :=
  1 <= _channels s /\ 0 <= _pos s <= _bufferEnd s
  /\ _bufferEnd s <= bufferSize
  /\ clean (_channels s) 0 (of_pending (_file s)) = true.

(** The samples a decoder can still deliver: none once it reports the end
    of the data, else what is left in the buffer and in the stream. *)
Definition available (s : OpusStream) : Z :=
  if endOfData s then 0
  else (_bufferEnd s - _pos s) + total (_channels s) (of_pending (_file s)).

(** Repeated [readBuffer] calls, one per requested size: the sum of the
    returned counts, everything copied out, the decoder afterwards. *)
Fixpoint readAll (s : OpusStream) (reqs : list Z)
  : outcome (Z * list Z * OpusStream) :=
  match reqs with
  | [] => Done (0, [], s)
  | n :: rest =>
      match readBuffer s n with
      | Done (k, out, s') =>
          match readAll s' rest with
          | Done (t, out', s'') => Done (k + t, out ++ out', s'')
          | Fault => Fault
          | NoProgress => NoProgress
          end
      | Fault => Fault
      | NoProgress => NoProgress
      end
  end.

Definition sumZ (l : list Z) : Z := fold_right Z.add 0 l.

(** ** What a decoder is about to deliver *)

(** The buffer is the array the class declares. *)
Definition intact (s : OpusStream) : Prop :=
  Z.of_nat (List.length (_buffer s)) = bufferSize.

(** The samples between the cursor and the end of the buffer. *)
Definition buffered (s : OpusStream) : list Z :=
  firstn (Z.to_nat (_bufferEnd s - _pos s))
         (skipn (Z.to_nat (_pos s)) (_buffer s)).

(** The samples the coming [op_read] calls store, in their order. *)
Definition decoded (tr : list op_event) : list Z :=
  List.concat (map ev_pcm tr).

(** The samples a decoder has yet to deliver: nothing once it reports the
    end of the data, else the buffered ones and then those of the
    stream. *)
Definition upcoming (s : OpusStream) : list Z :=
  if endOfData s then []
  else buffered s ++ decoded (of_pending (_file s)).

(** ** Sequences of calls *)

Section Runs.
Variable convertTimeToStreamPos : Timestamp -> Z -> bool -> Timestamp.
Variable totalNumberOfFrames : Timestamp -> Z.

(** The calls that change a decoder. *)
Inductive call : Type :=
| Read (numSamples : Z)
| Seek (where_ : Timestamp).

Definition step (c : call) (s : OpusStream) : outcome OpusStream :=
  match c with
  | Read n =>
      match readBuffer s n with
      | Done (_, _, s') => Done s'
      | Fault => Fault
      | NoProgress => NoProgress
      end
  | Seek w =>
      Done (snd (seek convertTimeToStreamPos totalNumberOfFrames s w))
  end.

Fixpoint run (cs : list call) (s : OpusStream) : outcome OpusStream :=
  match cs with
  | [] => Done s
  | c :: rest =>
      match step c s with
      | Done s' => run rest s'
      | Fault => Fault
      | NoProgress => NoProgress
      end
  end.

End Runs.

(** * The debugger console of the Tucker engine

    [TuckerConsole] of tucker/console.h and tucker/console.cpp: the
    debug flags and the commands [show], [box] and [audio], which share
    [_onOffHandler].  [debugPrintf] writes to the console window; what has
    been written is kept, a line an entry, in [printed].  The engine is
    outside the sources at hand; the calls made into it are kept in
    [vm_calls]. *)

Module Tucker.

(** [enum DebugFlags]. *)
Definition fDebugNone : Z := 0.
Definition fHideBud : Z := Z.shiftl 1 0.
Definition fHideSprites : Z := Z.shiftl 1 1.
Definition fHideAnimations : Z := Z.shiftl 1 2.
Definition fHideText : Z := Z.shiftl 1 3.
Definition fHideAll : Z :=
  Z.lor (Z.lor (Z.lor fHideBud fHideSprites) fHideAnimations) fHideText.
Definition fBoxBud : Z := Z.shiftl 1 4.
Definition fBoxSprites : Z := Z.shiftl 1 5.
Definition fBoxAnimations : Z := Z.shiftl 1 6.
Definition fBoxText : Z := Z.shiftl 1 7.
Definition fBoxAll : Z :=
  Z.lor (Z.lor (Z.lor fBoxBud fBoxSprites) fBoxAnimations) fBoxText.
Definition fMuteSound : Z := Z.shiftl 1 8.
Definition fMuteMusic : Z := Z.shiftl 1 9.
Definition fMuteSpeech : Z := Z.shiftl 1 10.
Definition fMuteAll : Z := Z.lor (Z.lor fMuteSound fMuteMusic) fMuteSpeech.
Definition fFooBar : Z := Z.shiftl 1 11.
Definition fFooQuux : Z := Z.shiftl 1 12.

(** The member functions a table entry can point to. *)
Inductive method : Type :=
| cmdAudioCallback.          (* [&TuckerConsole::_cmdAudioCallback] *)

(** [ConsoleCommand]; [callback] is [None] for [nullptr]. *)
Record ConsoleCommand : Type := mkCommand {
  type : string;
  flag : Z;
  closeConsole : bool;
  callback : option method
}.

(** The calls into the engine. *)
Inductive vm_call : Type :=
| stopSounds
| playSounds.

Record TuckerConsole : Type := mkConsole {
  _flags : Z;
  printed : list string;
  vm_calls : list vm_call
}.

Definition nl : string := String (Ascii.ascii_of_nat 10) EmptyString.

Definition debugPrintf (c : TuckerConsole) (text : string) : TuckerConsole :=
  mkConsole (_flags c) (printed c ++ [text]) (vm_calls c).

(** [(_flags & flag) == flag ? (invert ? "off" : "on")
                              : (invert ? "on" : "off")]. *)
Definition state_text (flags : Z) (e : ConsoleCommand) (invert : bool)
  : string :=
  if Z.land flags (flag e) =? flag e
  then (if invert then "off" else "on")
  else (if invert then "on" else "off").

(** [debugPrintf("%s: %s\n", table[i].type, ...)]. *)
Definition report (c : TuckerConsole) (e : ConsoleCommand) (invert : bool)
  : TuckerConsole :=
  debugPrintf c (type e ++ ": " ++ state_text (_flags c) e invert ++ nl).

(** The parameter is not used by the function; [None] stands for the
    variable [on] that [_onOffHandler] has left without a value. *)
Definition _cmdAudioCallback (c : TuckerConsole) (on : option bool)
  : TuckerConsole :=
  mkConsole (_flags c) (printed c) (vm_calls c ++ [stopSounds; playSounds]).

Definition call_method (m : method) (c : TuckerConsole) (on : option bool)
  : TuckerConsole :=
  match m with
  | cmdAudioCallback => _cmdAudioCallback c on
  end.

(** [for (int i = 0; table[i].type; ++i)] printing every entry.  A table
    is the list of its entries before the all-zero one that ends it. *)
Fixpoint list_all (c : TuckerConsole) (table : list ConsoleCommand)
    (invert : bool) : TuckerConsole :=
  match table with
  | [] => c
  | e :: rest => list_all (report c e invert) rest invert
  end.

(** The first entry with [!strcmp(name, table[i].type)]. *)
Fixpoint find_type (name : string) (table : list ConsoleCommand)
  : option ConsoleCommand :=
  match table with
  | [] => None
  | e :: rest => if String.eqb name (type e) then Some e
                 else find_type name rest
  end.

(** The [if (!strcmp(argv[2], "on")) ... else if (!strcmp(argv[2], "off"))]
    of the toggle case: the console and the value of [on]. *)
Definition toggle (c : TuckerConsole) (e : ConsoleCommand) (word : string)
    (invert : bool) : TuckerConsole * option bool :=
  if String.eqb word "on" then
    (mkConsole (if invert then Z.land (_flags c) (Z.lnot (flag e))
                else Z.lor (_flags c) (flag e))
               (printed c) (vm_calls c),
     Some true)
  else if String.eqb word "off" then
    (mkConsole (if invert then Z.lor (_flags c) (flag e)
                else Z.land (_flags c) (Z.lnot (flag e)))
               (printed c) (vm_calls c),
     Some false)
  else (c, None).

(** [argc] is the length of [argv]; a missing [argv[i]] reads as the
    empty string. *)
Definition _onOffHandler (c : TuckerConsole) (argv : list string)
    (table : list ConsoleCommand) (usage : string) (invert : bool)
  : bool * TuckerConsole :=
  let argc := Z.of_nat (List.length argv) in
  let arg := fun i => nth i argv EmptyString in
  let usage_exit :=
    (true, debugPrintf c ("Usage: " ++ arg 0%nat ++ " " ++ usage ++ nl)) in
  if argc =? 1 then (true, list_all c table invert)
  else if argc =? 2 then
    match find_type (arg 1%nat) table with
    | Some e => (true, report c e invert)
    | None => usage_exit
    end
  else if argc =? 3 then
    match find_type (arg 1%nat) table with
    | Some e =>
        let '(c1, on) := toggle c e (arg 2%nat) invert in
        let c2 := match callback e with
                  | Some m => call_method m c1 on
                  | None => c1
                  end in
        (negb (closeConsole e), report c2 e invert)
    | None => usage_exit
    end
  else usage_exit.

Definition showTable : list ConsoleCommand :=
  [ mkCommand "bud" fHideBud true None;
    mkCommand "sprites" fHideSprites true None;
    mkCommand "animations" fHideAnimations true None;
    mkCommand "text" fHideText true None;
    mkCommand "all" fHideAll true None ].

Definition cmdShow (c : TuckerConsole) (argv : list string)
  : bool * TuckerConsole :=
  _onOffHandler c argv showTable
                "<bud|sprites|animations|text|all> [on|off]" true.

Definition boxTable : list ConsoleCommand :=
  [ mkCommand "bud" fBoxBud true None;
    mkCommand "sprites" fBoxSprites true None;
    mkCommand "animations" fBoxAnimations true None;
    mkCommand "text" fBoxText true None;
    mkCommand "all" fBoxAll true None ].

Definition cmdBox (c : TuckerConsole) (argv : list string)
  : bool * TuckerConsole :=
  _onOffHandler c argv boxTable
                "<bud|sprites|animations|text|all> [on|off]" false.

Definition audioTable : list ConsoleCommand :=
  [ mkCommand "sound" fMuteSound true (Some cmdAudioCallback);
    mkCommand "music" fMuteMusic true (Some cmdAudioCallback);
    mkCommand "speech" fMuteSpeech true (Some cmdAudioCallback);
    mkCommand "all" fMuteAll true (Some cmdAudioCallback) ].

Definition cmdAudio (c : TuckerConsole) (argv : list string)
  : bool * TuckerConsole :=
  _onOffHandler c argv audioTable "<sound|music|speech|all> [on|off]" true.

(** The console as the constructor leaves it: [_flags = fDebugNone]. *)
Definition fresh : TuckerConsole := mkConsole fDebugNone [] [].

(** The last line printed. *)
Definition last_line (c : TuckerConsole) : string :=
  List.last (printed c) EmptyString.

End Tucker.

(** * Save file names of the Parallaction engine

    [SaveLoad::genSaveFileName] of parallaction/saveload.cpp.  [sprintf]
    is the one of the C library: [%.3u] prints an unsigned number in
    decimal with at least three digits. *)

Module Parallaction.

Definition NUM_SAVESLOTS : Z := 100.
Definition SPECIAL_SAVESLOT : Z := 999.

(** [%.<prec>u]. *)
Definition print_u (prec : nat) (n : Z) : string :=
  let digits := NilEmpty.string_of_uint (N.to_uint (Z.to_N n)) in
  (string_of_list_ascii
     (repeat "0"%char (prec - String.length digits)) ++ digits)%string.

(** How a call of [genSaveFileName] ends. *)
Inductive result : Type :=
| Name (s : string)       (* the string returned *)
| AssertionFailed         (* the [assert] stops the program *)
| BufferOverrun.          (* [sprintf] writes past [char s[20]] *)

(** [slot] is a [uint]: an argument of another integer type arrives
    converted.  The text and its closing NUL have to fit the 20 bytes of
    [s]. *)
Definition genSaveFileName (_saveFilePrefix : string) (slot : Z) : result :=
  let slot := to_uint32 slot in
  if negb ((slot <? NUM_SAVESLOTS) || (slot =? SPECIAL_SAVESLOT))
  then AssertionFailed
  else
    let s := (_saveFilePrefix ++ "." ++ print_u 3 slot)%string in
    if 20 <? Z.of_nat (String.length s) + 1 then BufferOverrun
    else Name s.

(** The slots the [assert] lets through. *)
Definition slots : list Z := SPECIAL_SAVESLOT :: map Z.of_nat (seq 0 100).

(** The character of a decimal digit: ['0' + d]. *)
Definition digit (d : Z) : ascii := Ascii.ascii_of_nat (48 + Z.to_nat d).

(** A number below 1000 written with its hundreds, tens and units. *)
Definition three_digits (n : Z) : string :=
  String (digit (n / 100))
         (String (digit (n / 10 mod 10))
                 (String (digit (n mod 10)) EmptyString)).

End Parallaction.

(** * Properties *)

Module CIntFacts.

Lemma to_uint32_range x : 0 <= to_uint32 x < two32.
Proof. unfold to_uint32, two32. apply Z.mod_pos_bound. lia. Qed.

Lemma to_uint32_small x : 0 <= x < two32 -> to_uint32 x = x.
Proof. intros H. unfold to_uint32. apply Z.mod_small. exact H. Qed.

Lemma to_int32_small x : - two31 <= x < two31 -> to_int32 x = x.
Proof.
  unfold to_int32, two31, two32. intros H.
  destruct (Z_lt_le_dec x 0) as [Hneg | Hpos].
  - replace (x mod 4294967296) with (x + 4294967296).
    + destruct (Z.ltb_spec (x + 4294967296) 2147483648); lia.
    + apply Z.mod_unique with (q := -1); lia.
  - rewrite Z.mod_small by lia.
    destruct (Z.ltb_spec x 2147483648); lia.
Qed.

Lemma to_byte_range x : 0 <= to_byte x < 256.
Proof. unfold to_byte. apply Z.mod_pos_bound. lia. Qed.

Lemma MIN_spec a b : MIN a b = Z.min a b.
Proof. unfold MIN. destruct (Z.ltb_spec a b); lia. Qed.

End CIntFacts.
Import CIntFacts.

(** ** The sample buffer *)

Lemma fetch_length buf off len :
  0 <= len -> Z.of_nat (List.length (fetch buf off len)) = len.
Proof.
  intros Hlen. unfold fetch.
  rewrite length_app, repeat_length.
  assert (Hle : (List.length (firstn (Z.to_nat len) (skipn (Z.to_nat off) buf))
                 <= Z.to_nat len)%nat) by apply firstn_le_length.
  lia.
Qed.

Lemma store_length buf off pcm :
  0 <= off -> List.length (store buf off pcm) = List.length buf.
Proof.
  intros Hoff. unfold store.
  rewrite length_firstn, !length_app, length_firstn, length_skipn. lia.
Qed.

(** ** The fill loop *)

Lemma after_read_cases ch n result :
  (after_read ch n result = Abort /\ result < 0 /\ result <> OP_HOLE)
  \/ (after_read ch n result = Break /\ result = 0)
  \/ (after_read ch n result = Continue (to_uint32 (n + result * ch))
      /\ (0 < result \/ result = OP_HOLE)).
Proof.
  unfold after_read, OP_HOLE.
  destruct (Z.ltb_spec result 0); destruct (Z.eqb_spec result (-3));
    destruct (Z.eqb_spec result 0); cbn; try lia;
    first [ left; split; [reflexivity | lia]
          | right; left; split; [reflexivity | lia]
          | right; right; split; [reflexivity | lia] ].
Qed.

(** A fill leaves a count that an [unsigned int] holds and never makes the
    trace longer; started below the capacity on a trace that is not
    exhausted it takes at least one event. *)
Lemma fill_loop_general ch pending :
  forall buf con n,
    0 <= n < two32 ->
    let r := fill_loop ch pending buf con n in
    0 <= fill_samplesRead r < two32
    /\ (List.length (fill_pending r) <= List.length pending)%nat
    /\ (n < bufferSize -> pending <> [] ->
        (List.length (fill_pending r) < List.length pending)%nat).
Proof.
  induction pending as [| e rest IH]; intros buf con n Hn; cbn zeta.
  - cbn [fill_loop].
    destruct (n <? bufferSize); cbn [fill_samplesRead fill_pending];
      repeat split; try lia; congruence.
  - cbn [fill_loop]. destruct (Z.ltb_spec n bufferSize) as [Hlt | Hge].
    + destruct (after_read_cases ch n (ev_result e))
        as [[-> _] | [[-> _] | [-> _]]]; cbn [fill_samplesRead fill_pending List.length].
      * repeat split; try lia.
      * repeat split; try lia.
      * specialize (IH (store buf n (ev_pcm e)) (con ++ read_warning (ev_result e))
                       (to_uint32 (n + ev_result e * ch))
                       (to_uint32_range _)).
        cbn zeta in IH. destruct IH as (Hr & Hlen & _).
        repeat split; try lia.
    + cbn [fill_samplesRead fill_pending]. repeat split; try lia.
Qed.

Lemma store_nothing buf off : store buf off [] = buf.
Proof.
  unfold store. cbn [app List.length]. rewrite Nat.add_0_r, firstn_skipn.
  apply firstn_all.
Qed.

(** The recursion on the trace is the loop of the source, one [op_read]
    call an iteration. *)
Lemma fill_loop_op_read ch f buf con n :
  fill_loop ch (of_pending f) buf con n
  = if n <? bufferSize then
      let '(result, pcm, f') := op_read f (to_int32 (bufferSize - n)) in
      let buf' := store buf n pcm in
      let con' := con ++ read_warning result in
      match after_read ch n result with
      | Abort => mkFill false n buf' (of_pending f') con'
      | Break => mkFill true n buf' (of_pending f') con'
      | Continue n' => fill_loop ch (of_pending f') buf' con' n'
      end
    else mkFill true n buf (of_pending f) con.
Proof.
  unfold op_read. destruct (of_pending f) as [| e rest] eqn:Hp;
    cbn [fill_loop]; destruct (n <? bufferSize); try reflexivity.
  cbn. rewrite Hp, store_nothing, app_nil_r. reflexivity.
Qed.

Lemma fill_loop_full ch pending buf con n :
  bufferSize <= n ->
  fill_loop ch pending buf con n = mkFill true n buf pending con.
Proof.
  intros Hn. destruct pending; cbn [fill_loop];
    destruct (Z.ltb_spec n bufferSize); try lia; reflexivity.
Qed.

Lemma clean_cons ch n e rest :
  clean ch n (e :: rest) = true ->
  0 < ev_result e /\ n + ev_result e * ch <= bufferSize
  /\ Z.of_nat (List.length (ev_pcm e)) = ev_result e * ch
  /\ clean ch (if n + ev_result e * ch <? bufferSize
               then n + ev_result e * ch else 0) rest = true.
Proof.
  cbn [clean]. cbn zeta. intros Hc.
  apply andb_prop in Hc. destruct Hc as [Hc Hrest].
  apply andb_prop in Hc. destruct Hc as [Hc Hlen].
  apply andb_prop in Hc. destruct Hc as [Hpos Hfit].
  apply Z.ltb_lt in Hpos. apply Z.leb_le in Hfit. apply Z.eqb_eq in Hlen.
  auto.
Qed.

Lemma total_nonneg ch tr :
  forall n, 1 <= ch -> clean ch n tr = true -> 0 <= total ch tr.
Proof.
  induction tr as [| e rest IH]; intros n Hch Hc; cbn [total fold_right].
  - lia.
  - apply clean_cons in Hc. destruct Hc as (Hpos & _ & _ & Hrest).
    specialize (IH _ Hch Hrest). unfold total in IH. nia.
Qed.

Lemma total_positive ch n e rest :
  1 <= ch -> clean ch n (e :: rest) = true -> 0 < total ch (e :: rest).
Proof.
  intros Hch Hc. apply clean_cons in Hc. destruct Hc as (Hpos & _ & _ & Hrest).
  pose proof (total_nonneg _ _ _ Hch Hrest) as Hnn.
  cbn [total fold_right]. unfold total in Hnn. nia.
Qed.

(** On a well-behaved trace the fill succeeds without a warning, stays
    within the buffer, leaves a well-behaved trace, and every sample it
    took off the trace is in the buffer. *)
Lemma fill_loop_clean ch pending :
  forall buf con n,
    1 <= ch -> 0 <= n < bufferSize -> clean ch n pending = true ->
    let r := fill_loop ch pending buf con n in
    fill_ok r = true
    /\ n <= fill_samplesRead r <= bufferSize
    /\ clean ch 0 (fill_pending r) = true
    /\ fill_console r = con
    /\ fill_samplesRead r - n + total ch (fill_pending r) = total ch pending
    /\ (fill_samplesRead r = n -> pending = []).
Proof.
  induction pending as [| e rest IH]; intros buf con n Hch Hn Hc; cbn zeta.
  - cbn [fill_loop]. destruct (Z.ltb_spec n bufferSize); [| lia].
    cbn [fill_ok fill_samplesRead fill_pending fill_console total fold_right clean].
    repeat split; lia.
  - pose proof Hc as Hc'. apply clean_cons in Hc'.
    destruct Hc' as (Hpos & Hfit & _ & Hrest).
    cbn [fill_loop]. destruct (Z.ltb_spec n bufferSize); [| lia].
    destruct (after_read_cases ch n (ev_result e))
      as [[_ [Hneg _]] | [[_ Hz] | [-> _]]]; try lia.
    assert (Hw : read_warning (ev_result e) = []).
    { unfold read_warning. destruct (Z.ltb_spec (ev_result e) 0); [lia | reflexivity]. }
    rewrite Hw, app_nil_r.
    assert (Hmul : 1 <= ev_result e * ch) by nia.
    rewrite to_uint32_small by (unfold two32, bufferSize in *; lia).
    revert Hrest.
    destruct (Z.ltb_spec (n + ev_result e * ch) bufferSize) as [Hlt | Hge];
      intros Hrest.
    + assert (Hn' : 0 <= n + ev_result e * ch < bufferSize) by lia.
      specialize (IH (store buf n (ev_pcm e)) con (n + ev_result e * ch) Hch
                     Hn' Hrest).
      cbn zeta in IH. destruct IH as (Hok & Hr & Hcl & Hcon & Hsum & _).
      cbn [total fold_right]. unfold total in Hsum |- *.
      repeat split; try assumption; lia.
    + rewrite fill_loop_full by lia.
      cbn [fill_ok fill_samplesRead fill_pending fill_console total fold_right].
      repeat split; try assumption; lia.
Qed.

(** [_fillBuffer] changes neither the format nor the duration. *)
Lemma fillBuffer_format s :
  let s' := snd (_fillBuffer s) in
  _channels s' = _channels s /\ _rate s' = _rate s /\ _length s' = _length s.
Proof.
  unfold _fillBuffer. cbn zeta.
  destruct (fill_ok _); cbn; auto.
Qed.

(** A failed fill leaves the cursor at the end of the buffer. *)
Lemma fillBuffer_failed s s' :
  _fillBuffer s = (false, s') ->
  _pos s' = _bufferEnd s' /\ _bufferEnd s' = _bufferEnd s.
Proof.
  unfold _fillBuffer. cbn zeta.
  destruct (fill_ok _); intros Heq; inversion Heq; subst; cbn; auto.
Qed.

(** A fill that succeeds puts the cursor at the start of the buffer and
    the end behind the samples counted. *)
Lemma fillBuffer_succeeded s s' :
  _fillBuffer s = (true, s') ->
  _pos s' = 0 /\ 0 <= _bufferEnd s' < two32
  /\ (List.length (of_pending (_file s')) <= List.length (of_pending (_file s)))%nat
  /\ (of_pending (_file s) <> [] ->
      (List.length (of_pending (_file s')) < List.length (of_pending (_file s)))%nat).
Proof.
  unfold _fillBuffer. cbn zeta.
  pose proof (fill_loop_general (_channels s) (of_pending (_file s))
                (_buffer s) (_console s) 0) as Hg.
  cbn zeta in Hg. destruct Hg as (Hr & Hle & Hlt); [unfold two32; lia |].
  destruct (fill_ok _); intros Heq; inversion Heq; subst; cbn.
  repeat split; try lia. intros Hne. apply Hlt; [unfold bufferSize; lia | exact Hne].
Qed.

(** ** The read loop *)

Lemma read_loop_stop fuel s n samples out :
  (samples <? n) && (_pos s <? _bufferEnd s) = false ->
  read_loop fuel s n samples out = Done (samples, out, s).
Proof. intros Hc. destruct fuel; cbn [read_loop]; rewrite Hc; reflexivity. Qed.

Lemma MIN_le_l a b : MIN a b <= a.
Proof. rewrite MIN_spec. lia. Qed.

(** Whatever the state of the decoder: a call that returns has counted
    between nothing and what was asked for, has copied exactly what it
    counted, and has left the format and the duration alone. *)
Lemma read_loop_returns fuel :
  forall s n samples out k o s',
    read_loop fuel s n samples out = Done (k, o, s') ->
    samples <= k <= Z.max samples n
    /\ Z.of_nat (List.length o) = Z.of_nat (List.length out) + (k - samples)
    /\ _channels s' = _channels s /\ _rate s' = _rate s
    /\ _length s' = _length s.
Proof.
  induction fuel as [| fuel IH]; intros s n samples out k o s' Hrun;
    cbn [read_loop] in Hrun;
    destruct ((samples <? n) && (_pos s <? _bufferEnd s)) eqn:Hcond;
    try discriminate;
    try (inversion Hrun; subst; repeat split; lia).
  apply andb_prop in Hcond. destruct Hcond as [Hlt _]. apply Z.ltb_lt in Hlt.
  cbn zeta in Hrun.
  set (len := MIN (n - samples) (to_int32 (_bufferEnd s - _pos s))) in *.
  pose proof (MIN_le_l (n - samples) (to_int32 (_bufferEnd s - _pos s))) as Hle.
  fold len in Hle.
  destruct (Z.ltb_spec len 0) as [Hneg | Hnn]; [discriminate |].
  pose proof (fetch_length (_buffer s) (_pos s) len Hnn) as Hfetch.
  cbn [_bufferEnd _pos] in Hrun.
  destruct (_bufferEnd s <=? _pos s + len).
  - destruct (_fillBuffer _) as [ok s2] eqn:Hfill.
    pose proof (fillBuffer_format
                  (mkOpusStream (_channels s) (_rate s) (_length s) (_file s)
                     (_buffer s) (_bufferEnd s) (_pos s + len) (_console s)))
      as Hfmt.
    cbn zeta in Hfmt. rewrite Hfill in Hfmt. cbn in Hfmt.
    destruct Hfmt as (Hch & Hrate & Hlength).
    destruct ok.
    + apply IH in Hrun. rewrite length_app in Hrun.
      destruct Hrun as (Hk & Hlen & Hc & Hr & Hl).
      repeat split; try lia; congruence.
    + inversion Hrun; subst. rewrite length_app.
      repeat split; try lia; congruence.
  - apply IH in Hrun. rewrite length_app in Hrun. cbn in Hrun.
    destruct Hrun as (Hk & Hlen & Hc & Hr & Hl).
    repeat split; try lia; congruence.
Qed.

Lemma available_nonneg s : valid s -> 0 <= available s.
Proof.
  intros (Hch & Hpos & Hend & Hclean). unfold available, endOfData.
  pose proof (total_nonneg _ _ _ Hch Hclean).
  destruct (Z.leb_spec (_bufferEnd s) (_pos s)); lia.
Qed.

Lemma endOfData_available s :
  valid s -> (endOfData s = true <-> available s = 0).
Proof.
  intros Hv. pose proof Hv as (Hch & Hpos & Hend & Hclean).
  unfold available. pose proof (total_nonneg _ _ _ Hch Hclean).
  unfold endOfData.
  destruct (Z.leb_spec (_bufferEnd s) (_pos s)); split; intros; try lia;
    try reflexivity; discriminate.
Qed.

(** A refill of a valid decoder whose buffer has been used up. *)
Lemma fillBuffer_valid s :
  1 <= _channels s ->
  clean (_channels s) 0 (of_pending (_file s)) = true ->
  exists s',
    _fillBuffer s = (true, s')
    /\ valid s'
    /\ _pos s' = 0
    /\ available s' = total (_channels s) (of_pending (_file s))
    /\ _console s' = _console s
    /\ _channels s' = _channels s /\ _rate s' = _rate s
    /\ _length s' = _length s
    /\ (endOfData s' = false ->
        (List.length (of_pending (_file s'))
         < List.length (of_pending (_file s)))%nat).
Proof.
  intros Hch Hclean.
  pose proof (fill_loop_clean (_channels s) (of_pending (_file s)) (_buffer s)
                (_console s) 0 Hch ltac:(unfold bufferSize; lia) Hclean) as Hf.
  pose proof (fill_loop_general (_channels s) (of_pending (_file s)) (_buffer s)
                (_console s) 0 ltac:(unfold two32; lia)) as Hg.
  cbn zeta in Hf, Hg.
  destruct Hf as (Hok & Hr & Hcl & Hcon & Hsum & Hzero).
  destruct Hg as (_ & _ & Hshort).
  unfold _fillBuffer. cbn zeta. rewrite Hok.
  eexists. split; [reflexivity |].
  unfold valid, available, endOfData, with_pending.
  cbn [_channels _pos _bufferEnd _file _console _rate _length of_pending].
  set (r := fill_loop (_channels s) (of_pending (_file s)) (_buffer s)
                      (_console s) 0) in *.
  rewrite Z.add_0_l.
  repeat split; try assumption; try lia.
  - destruct (Z.leb_spec (fill_samplesRead r) 0) as [Hle | Hgt].
    + assert (Hnil : of_pending (_file s) = []) by (apply Hzero; lia).
      rewrite Hnil. reflexivity.
    + lia.
  - intros Hnot. apply Hshort; [unfold bufferSize; lia |].
    intros Hnil. apply Z.leb_gt in Hnot.
    rewrite Hnil in Hsum. cbn [total fold_right] in Hsum.
    pose proof (total_nonneg _ _ _ Hch Hcl). lia.
Qed.

(** On a valid decoder the loop returns, having delivered what was asked
    for or everything that is left, whichever is less. *)
Lemma read_loop_valid fuel :
  forall s n samples out,
    valid s ->
    (endOfData s = false ->
     (List.length (of_pending (_file s)) < fuel)%nat) ->
    exists k out' s',
      read_loop fuel s n samples out = Done (samples + k, out ++ out', s')
      /\ k = Z.min (Z.max 0 (n - samples)) (available s)
      /\ Z.of_nat (List.length out') = k
      /\ valid s'
      /\ available s' = available s - k
      /\ _console s' = _console s.
Proof.
  induction fuel as [| fuel IH]; intros s n samples out Hv Hfuel;
    pose proof (available_nonneg s Hv) as Hav;
    pose proof (endOfData_available s Hv) as Heod;
    destruct ((samples <? n) && (_pos s <? _bufferEnd s)) eqn:Hcond.
  - apply andb_prop in Hcond. destruct Hcond as [_ Hp]. apply Z.ltb_lt in Hp.
    assert (He : endOfData s = false) by (apply Z.leb_gt; exact Hp).
    specialize (Hfuel He). lia.
  - rewrite read_loop_stop by exact Hcond.
    exists 0, [], s. rewrite Z.add_0_r, app_nil_r.
    pose proof Hv as (Hch & Hpos & Hend & Hclean).
    repeat split; try assumption; try reflexivity; try lia.
    apply andb_false_iff in Hcond. destruct Hcond as [Hs | Hp].
    + apply Z.ltb_ge in Hs. lia.
    + apply Z.ltb_ge in Hp. apply Z.leb_le in Hp.
      fold (endOfData s) in Hp. apply Heod in Hp. lia.
  - pose proof Hcond as Hcond'.
    apply andb_prop in Hcond. destruct Hcond as [Hs Hp].
    apply Z.ltb_lt in Hs. apply Z.ltb_lt in Hp.
    assert (He : endOfData s = false) by (apply Z.leb_gt; exact Hp).
    specialize (Hfuel He).
    pose proof Hv as (Hch & Hpos & Hend & Hclean).
    pose proof (total_nonneg _ _ _ Hch Hclean) as Htot.
    assert (Havs : available s
                   = _bufferEnd s - _pos s
                     + total (_channels s) (of_pending (_file s))).
    { unfold available. rewrite He. reflexivity. }
    cbn [read_loop]. rewrite Hcond'. cbn zeta.
    rewrite to_int32_small by (unfold two31, bufferSize in *; lia).
    rewrite MIN_spec.
    set (len := Z.min (n - samples) (_bufferEnd s - _pos s)).
    assert (Hlen : 0 < len) by (unfold len; lia).
    destruct (Z.ltb_spec len 0); [lia |].
    pose proof (fetch_length (_buffer s) (_pos s) len ltac:(lia)) as Hfetch.
    cbn [_bufferEnd _pos].
    destruct (Z.leb_spec (_bufferEnd s) (_pos s + len)) as [Hfull | Hpart].
    + set (s1 := mkOpusStream (_channels s) (_rate s) (_length s) (_file s)
                   (_buffer s) (_bufferEnd s) (_pos s + len) (_console s)).
      destruct (fillBuffer_valid s1 Hch Hclean)
        as (s2 & Hfill & Hv2 & _ & Hav2 & Hcon2 & _ & _ & _ & Hshort).
      rewrite Hfill. cbn [_file s1] in Hshort.
      assert (Hfuel2 : endOfData s2 = false ->
                       (List.length (of_pending (_file s2)) < fuel)%nat).
      { intros He2. specialize (Hshort He2). lia. }
      destruct (IH s2 n (samples + len) (out ++ fetch (_buffer s) (_pos s) len)
                   Hv2 Hfuel2)
        as (k2 & out2 & s' & Hrun & Hk2 & Hout2 & Hv' & Hav' & Hcon').
      exists (len + k2), (fetch (_buffer s) (_pos s) len ++ out2), s'.
      rewrite Z.add_assoc, app_assoc. split; [exact Hrun |].
      cbn [_channels _file s1] in Hav2.
      rewrite length_app.
      split; [unfold len in *; lia |]. split; [lia |].
      split; [exact Hv' |]. split; [lia |].
      rewrite Hcon', Hcon2. reflexivity.
    + rewrite read_loop_stop.
      * exists len, (fetch (_buffer s) (_pos s) len).
        eexists. split; [reflexivity |].
        unfold valid, available, endOfData.
        cbn [_channels _pos _bufferEnd _file _console].
        destruct (Z.leb_spec (_bufferEnd s) (_pos s + len)); [lia |].
        destruct (Z.leb_spec (_bufferEnd s) (_pos s)); [lia |].
        unfold len in *. repeat split; try assumption; try lia.
      * apply andb_false_iff. left. apply Z.ltb_ge. unfold len in *. lia.
  - rewrite read_loop_stop by exact Hcond.
    exists 0, [], s. rewrite Z.add_0_r, app_nil_r.
    pose proof Hv as (Hch & Hpos & Hend & Hclean).
    repeat split; try assumption; try reflexivity; try lia.
    apply andb_false_iff in Hcond. destruct Hcond as [Hs | Hp].
    + apply Z.ltb_ge in Hs. lia.
    + apply Z.ltb_ge in Hp. apply Z.leb_le in Hp.
      fold (endOfData s) in Hp. apply Heod in Hp. lia.
Qed.

Lemma readBuffer_valid s n :
  valid s ->
  exists k out s',
    readBuffer s n = Done (k, out, s')
    /\ k = Z.min (Z.max 0 n) (available s)
    /\ Z.of_nat (List.length out) = k
    /\ valid s'
    /\ available s' = available s - k
    /\ _console s' = _console s.
Proof.
  intros Hv. unfold readBuffer.
  destruct (read_loop_valid (S (List.length (of_pending (_file s)))) s n 0 []
              Hv ltac:(intros _; lia))
    as (k & out & s' & Hrun & Hk & Hrest).
  exists k, out, s'. rewrite Hrun. rewrite Z.sub_0_r in Hk.
  split; [reflexivity | split; [exact Hk | exact Hrest]].
Qed.

Lemma sumZ_nonneg reqs : Forall (fun n => 0 <= n) reqs -> 0 <= sumZ reqs.
Proof.
  induction 1 as [| n rest Hn _ IH]; cbn [sumZ fold_right]; [lia |].
  unfold sumZ in IH. lia.
Qed.

Lemma readAll_valid reqs :
  forall s,
    valid s -> Forall (fun n => 0 <= n) reqs ->
    exists t out s',
      readAll s reqs = Done (t, out, s')
      /\ t = Z.min (sumZ reqs) (available s)
      /\ Z.of_nat (List.length out) = t
      /\ valid s'
      /\ available s' = available s - t.
Proof.
  induction reqs as [| n rest IH]; intros s Hv Hreqs.
  - exists 0, [], s. pose proof (available_nonneg s Hv).
    cbn [readAll sumZ fold_right List.length].
    split; [reflexivity |]. split; [lia |]. split; [reflexivity |].
    split; [exact Hv | lia].
  - inversion Hreqs as [| n' rest' Hn Hrest]; subst.
    destruct (readBuffer_valid s n Hv)
      as (k & out & s1 & Hread & Hk & Hout & Hv1 & Hav1 & _).
    destruct (IH s1 Hv1 Hrest) as (t & out2 & s2 & Hall & Ht & Hout2 & Hv2 & Hav2).
    exists (k + t), (out ++ out2), s2.
    cbn [readAll]. rewrite Hread, Hall.
    pose proof (sumZ_nonneg rest Hrest) as Hsum.
    pose proof (available_nonneg s Hv).
    cbn [sumZ fold_right]. unfold sumZ in Hsum, Ht. rewrite length_app.
    split; [reflexivity |]. split; [lia |]. split; [lia |].
    split; [exact Hv2 | lia].
Qed.

(** A fill on an exhausted trace finds nothing. *)
Lemma fillBuffer_exhausted s s' :
  _fillBuffer s = (true, s') -> of_pending (_file s) = [] -> _bufferEnd s' = 0.
Proof.
  unfold _fillBuffer. cbn zeta. intros Heq Hnil. rewrite Hnil in Heq.
  cbn in Heq. inversion Heq; subst. reflexivity.
Qed.

(** The fuel of [readBuffer] is enough: from a state in which the end of
    the buffer is less than 2^32 samples past the cursor (as in every
    state the constructor, a fill or a read leaves) the loop ends within
    it, by returning or by the fault. *)
Lemma read_loop_progress fuel :
  forall s n samples out,
    _bufferEnd s - _pos s < two32 ->
    (endOfData s = false ->
     (List.length (of_pending (_file s)) < fuel)%nat) ->
    read_loop fuel s n samples out <> NoProgress.
Proof.
  induction fuel as [| fuel IH]; intros s n samples out Hd Hfuel;
    destruct ((samples <? n) && (_pos s <? _bufferEnd s)) eqn:Hcond;
    try (rewrite read_loop_stop by exact Hcond; discriminate);
    pose proof Hcond as Hcond';
    apply andb_prop in Hcond; destruct Hcond as [Hs Hp];
    apply Z.ltb_lt in Hs; apply Z.ltb_lt in Hp;
    assert (He : endOfData s = false) by (apply Z.leb_gt; exact Hp);
    specialize (Hfuel He); [lia |].
  cbn [read_loop]. rewrite Hcond'. cbn zeta.
  set (d := _bufferEnd s - _pos s) in *.
  set (len := MIN (n - samples) (to_int32 d)).
  destruct (Z.ltb_spec len 0) as [Hneg | Hnn]; [discriminate |].
  assert (Hsmall : d < two31).
  { destruct (Z_lt_le_dec d two31) as [Hlt | Hge]; [exact Hlt | exfalso].
    assert (Hi : to_int32 d = d - two32).
    { unfold to_int32. rewrite Z.mod_small by lia.
      destruct (Z.ltb_spec d two31); [lia | reflexivity]. }
    unfold len in Hnn. rewrite MIN_spec, Hi in Hnn. lia. }
  assert (Hlen : len = Z.min (n - samples) d).
  { unfold len. rewrite MIN_spec, to_int32_small by (unfold two31 in *; lia).
    reflexivity. }
  cbn [_bufferEnd _pos].
  destruct (Z.leb_spec (_bufferEnd s) (_pos s + len)) as [Hfull | Hpart].
  - destruct (_fillBuffer _) as [ok s2] eqn:Hfill.
    destruct ok; [| discriminate].
    pose proof (fillBuffer_succeeded _ _ Hfill) as (Hp2 & He2 & _ & Hshort).
    cbn [_file] in Hshort.
    apply IH; [lia |].
    intros Hnot.
    assert (Hne : of_pending (_file s) <> []).
    { intros Hnil. pose proof (fillBuffer_exhausted _ _ Hfill Hnil) as Hz.
      unfold endOfData in Hnot. apply Z.leb_gt in Hnot. lia. }
    specialize (Hshort Hne). lia.
  - rewrite read_loop_stop; [discriminate |].
    apply andb_false_iff. left. apply Z.ltb_ge. unfold d in *. lia.
Qed.

Lemma readBuffer_progress s n :
  _bufferEnd s - _pos s < two32 -> readBuffer s n <> NoProgress.
Proof.
  intros Hd. unfold readBuffer. apply read_loop_progress; [exact Hd | lia].
Qed.

(** With the cursor at the end of the buffer the loop of [readBuffer] is
    not entered. *)
Lemma read_loop_at_end fuel s n :
  endOfData s = true -> read_loop fuel s n 0 [] = Done (0, [], s).
Proof.
  intros Hend. apply read_loop_stop.
  apply andb_false_iff. right. apply Z.ltb_ge.
  unfold endOfData in Hend. apply Z.leb_le in Hend. exact Hend.
Qed.


(** A read keeps the end of the buffer less than 2^32 samples past the
    cursor. *)
Lemma read_loop_near fuel :
  forall s n samples out k o s',
    _bufferEnd s - _pos s < two32 ->
    read_loop fuel s n samples out = Done (k, o, s') ->
    _bufferEnd s' - _pos s' < two32.
Proof.
  induction fuel as [| fuel IH]; intros s n samples out k o s' Hd Hrun;
    cbn [read_loop] in Hrun;
    destruct ((samples <? n) && (_pos s <? _bufferEnd s)) eqn:Hcond;
    try discriminate;
    try (inversion Hrun; subst; exact Hd).
  cbn zeta in Hrun.
  set (len := MIN (n - samples) (to_int32 (_bufferEnd s - _pos s))) in *.
  destruct (Z.ltb_spec len 0) as [Hneg | Hnn]; [discriminate |].
  cbn [_bufferEnd _pos] in Hrun.
  destruct (_bufferEnd s <=? _pos s + len).
  - destruct (_fillBuffer _) as [ok s2] eqn:Hfill. destruct ok.
    + apply fillBuffer_succeeded in Hfill. destruct Hfill as (Hp & He & _).
      apply IH in Hrun; [exact Hrun | lia].
    + apply fillBuffer_failed in Hfill. destruct Hfill as [Hp _].
      inversion Hrun; subst. unfold two32. lia.
  - apply IH in Hrun; [exact Hrun |]. cbn [_bufferEnd _pos]. lia.
Qed.

(** * The claims *)

(** ** Error Translator *)

(** C8: [opusError] is a total function of the status code; each of the
    fourteen codes it lists has its fixed text, and every other code gets
    the fixed text "Unknown error". *)
Theorem opusError_table :
  map opusError listed_codes =
    [ "Request did not succeed";
      "There was a hole in the data and some samples may have been skipped";
      "An underlying read, seek, or tell operation failed";
      "Internal memory allocation or library error";
      "Unimplemented feature used in stream";
      "One or more parameters to a function were invalid";
      "Invalid Ogg Opus stream";
      "Invalid Ogg Opus stream";
      "Unrecognized version number in header";
      "Unknown error";
      "Failed to decode audio packet";
      "Seeking error";
      "Non-seekable stream";
      "Validity checks failed for first or last timestamp in a link" ]%string
  /\ forall errnum, ~ In errnum listed_codes ->
                    opusError errnum = "Unknown error"%string.
Proof.
  split; [reflexivity |].
  intros errnum Hout. unfold opusError.
  repeat match goal with
         | |- context [errnum =? ?c] =>
             destruct (Z.eqb_spec errnum c) as [-> | _];
             [exfalso; apply Hout; unfold listed_codes; cbn [In]; tauto |]
         end.
  reflexivity.
Qed.

Lemma opusError_table_witness :
  opusError OP_EOF = "Unknown error"%string
  /\ opusError 0 = "Unknown error"%string.
Proof.
  split; apply (proj2 opusError_table);
    unfold listed_codes; cbn [In]; intros Hin;
    repeat (destruct Hin as [Hin | Hin]; [discriminate Hin |]); exact Hin.
Defined.

(** ** Byte-Source Adapter *)

(** C9: every callback forwards to the operation of the byte source.
    [read] hands on the bytes and returns their count (any count an [int]
    holds, 0 at the end of the stream included); [seek] calls the source
    with the offset as an [int32] and returns 0 when that seek succeeds and
    -1 when it fails; [tell] returns the offset the source reports; [close]
    returns 0 and leaves the source as it is. *)
Theorem adapter_forwards {Src : Type} `{SeekableReadStream Src} (src : Src) :
  (forall n count bytes src',
      stream_read src n = (count, bytes, src') ->
      0 <= count < two31 ->
      read_stream_callback src n = (count, bytes, src'))
  /\ (forall offset whence,
         seek_stream_callback src offset whence
         = ((if fst (stream_seek src (to_int32 offset) whence) then 0 else -1),
            snd (stream_seek src (to_int32 offset) whence)))
  /\ (forall offset whence,
         - two31 <= offset < two31 ->
         seek_stream_callback src offset whence
         = ((if fst (stream_seek src offset whence) then 0 else -1),
            snd (stream_seek src offset whence)))
  /\ tell_stream_callback src = stream_pos src
  /\ close_stream_callback src = (0, src).
Proof.
  split; [| split; [| split; [| split]]].
  - intros n count bytes src' Hread Hcount. unfold read_stream_callback.
    rewrite Hread.
    rewrite to_uint32_small by (unfold two31, two32 in *; lia).
    rewrite to_int32_small by (unfold two31 in *; lia). reflexivity.
  - intros offset whence. unfold seek_stream_callback.
    destruct (stream_seek src (to_int32 offset) whence) as [ok src'].
    reflexivity.
  - intros offset whence Hoff. unfold seek_stream_callback.
    rewrite to_int32_small by exact Hoff.
    destruct (stream_seek src offset whence) as [ok src']. reflexivity.
  - reflexivity.
  - reflexivity.
Qed.

Lemma adapter_forwards_witness :
  read_stream_callback Demo.good_source 4
  = (4, Demo.OggS, Demo.mkByteBuffer (Demo.bb_data Demo.good_source) 4)
  /\ read_stream_callback (Demo.mkByteBuffer Demo.OggS 4) 16
     = (0, [], Demo.mkByteBuffer Demo.OggS 4)
  /\ seek_stream_callback Demo.good_source 2 0
     = (0, Demo.mkByteBuffer (Demo.bb_data Demo.good_source) 2)
  /\ seek_stream_callback Demo.good_source 7 0 = (-1, Demo.good_source).
Proof.
  split; [| split; [| split]].
  - apply (proj1 (adapter_forwards Demo.good_source) 4 4 Demo.OggS);
      [reflexivity | unfold two31; lia].
  - apply (proj1 (adapter_forwards (Demo.mkByteBuffer Demo.OggS 4)) 16 0 []);
      [reflexivity | unfold two31; lia].
  - rewrite (proj1 (proj2 (proj2 (adapter_forwards Demo.good_source))) 2 0)
      by (unfold two31; lia).
    reflexivity.
  - rewrite (proj1 (proj2 (proj2 (adapter_forwards Demo.good_source))) 7 0)
      by (unfold two31; lia).
    reflexivity.
Defined.

(** ** Read at the end of the data *)

(** C10: when [endOfData] already holds, [readBuffer] returns 0, copies
    nothing and leaves the whole state as it was: cursor, buffer end,
    buffer contents, channel count, rate, duration, and the codec handle
    with its trace, so no decode call has been made. *)
Theorem readBuffer_at_end (s : OpusStream) (numSamples : Z) :
  endOfData s = true -> readBuffer s numSamples = Done (0, [], s).
Proof. intros Hend. unfold readBuffer. apply read_loop_at_end, Hend. Qed.

Lemma readBuffer_at_end_witness :
  readBuffer (Demo.open_stream Demo.half_second Demo.bad_source) 64
  = Done (0, [], Demo.open_stream Demo.half_second Demo.bad_source).
Proof. apply readBuffer_at_end. vm_compute. reflexivity. Defined.

(** ** Construction *)

Section DecoderFacts.
Context {Src : Type} `{SeekableReadStream Src}.
Variable op_open_callbacks : Src -> OpusFileCallbacks Src -> Z * OggOpusFile.
Variable convertTimeToStreamPos : Timestamp -> Z -> bool -> Timestamp.
Variable totalNumberOfFrames : Timestamp -> Z.

Let new := OpusStream_new op_open_callbacks.
Let make := makeOpusStream op_open_callbacks.
Let seek_ := seek convertTimeToStreamPos totalNumberOfFrames.
Let run_ := run convertTimeToStreamPos totalNumberOfFrames.
Let step_ := step convertTimeToStreamPos totalNumberOfFrames.

(** The constructor, with the members it has assigned read back. *)
Lemma new_unfold mem stream :
  new mem stream
  = let '(result, file) := op_open_callbacks stream g_stream_callbacks in
    if result <? 0 then
      mkOpusStream (_channels mem) (_rate mem) (mkTimestamp 0 1000) file
        (_buffer mem) bufferSize bufferSize
        (_console mem ++ [warning "Could not create Opus stream: "
                                  (opusError result)])
    else
      let '(ok, s2) := _fillBuffer (before_first_fill mem file) in
      if negb ok then s2
      else
        mkOpusStream (_channels s2) (_rate s2)
          (mkTimestamp (Z.quot (op_pcm_total (_file s2) (-1)) (_rate s2)
                        * 1000) (_rate s2))
          (_file s2) (_buffer s2) (_bufferEnd s2) (_pos s2)
          (if op_pcm_total (_file s2) (-1) <? 0
           then _console s2
                  ++ [warning "Could not determine length of Opus stream: "
                              (opusError
                                 (to_int32 (op_pcm_total (_file s2) (-1))))]
           else _console s2).
Proof. reflexivity. Qed.

Lemma new_open_failed mem stream result file :
  op_open_callbacks stream g_stream_callbacks = (result, file) ->
  result < 0 ->
  new mem stream
  = mkOpusStream (_channels mem) (_rate mem) (mkTimestamp 0 1000) file
      (_buffer mem) bufferSize bufferSize
      (_console mem ++ [warning "Could not create Opus stream: "
                                (opusError result)]).
Proof.
  intros Hopen Hneg. rewrite new_unfold, Hopen.
  destruct (Z.ltb_spec result 0); [reflexivity | lia].
Qed.

Lemma new_opened mem stream result file :
  op_open_callbacks stream g_stream_callbacks = (result, file) ->
  0 <= result ->
  let s2 := snd (_fillBuffer (before_first_fill mem file)) in
  _channels (new mem stream) = to_byte (op_channel_count file (-1))
  /\ _rate (new mem stream) = 48000
  /\ _pos (new mem stream) = _pos s2
  /\ _bufferEnd (new mem stream) = _bufferEnd s2
  /\ _file (new mem stream) = _file s2
  /\ (fst (_fillBuffer (before_first_fill mem file)) = true ->
      _length (new mem stream)
      = mkTimestamp (Z.quot (op_pcm_total file (-1)) 48000 * 1000) 48000)
  /\ (fst (_fillBuffer (before_first_fill mem file)) = false ->
      new mem stream = s2).
Proof.
  intros Hopen Hres. cbn zeta. rewrite new_unfold, Hopen.
  destruct (Z.ltb_spec result 0); [lia |].
  pose proof (fillBuffer_format (before_first_fill mem file)) as Hfmt.
  cbn zeta in Hfmt.
  assert (Htotal : op_pcm_total
                     (_file (snd (_fillBuffer (before_first_fill mem file))))
                     (-1)
                   = op_pcm_total file (-1)).
  { unfold _fillBuffer. cbn zeta. destruct (fill_ok _); reflexivity. }
  destruct (_fillBuffer (before_first_fill mem file)) as [ok s2].
  cbn [fst snd] in *. destruct Hfmt as (Hch & Hrate & Hlength).
  cbn [before_first_fill _channels _rate _length] in Hch, Hrate, Hlength.
  destruct ok; cbn [negb _channels _rate _length _file _buffer _bufferEnd
                      _pos _console].
  - rewrite Htotal, Hrate.
    repeat split; try assumption; try reflexivity. discriminate.
  - repeat split; try assumption; try reflexivity. discriminate.
Qed.

(** Opening a well-behaved stream gives a valid decoder holding or
    expecting every sample of the stream. *)
Lemma new_valid mem stream result file :
  op_open_callbacks stream g_stream_callbacks = (result, file) ->
  0 <= result ->
  1 <= to_byte (op_channel_count file (-1)) ->
  clean (to_byte (op_channel_count file (-1))) 0 (of_pending file) = true ->
  valid (new mem stream)
  /\ available (new mem stream)
     = total (to_byte (op_channel_count file (-1))) (of_pending file).
Proof.
  intros Hopen Hres Hch Hclean.
  destruct (fillBuffer_valid (before_first_fill mem file) Hch Hclean)
    as (s2 & Hfill & Hv2 & Hp2 & Hav2 & Hcon2 & _).
  pose proof (new_opened mem stream result file Hopen Hres) as Hnew.
  cbn zeta in Hnew. rewrite Hfill in Hnew. cbn [fst snd] in Hnew.
  destruct Hnew as (Hc & Hr & Hp & He & Hf & Hl & _).
  destruct Hv2 as (Hv2c & Hv2p & Hv2e & Hv2t).
  pose proof (fillBuffer_format (before_first_fill mem file)) as Hfmt.
  cbn zeta in Hfmt. rewrite Hfill in Hfmt. cbn [snd] in Hfmt.
  destruct Hfmt as (Hch2 & _ & _).
  cbn [before_first_fill _channels] in Hch2.
  split.
  - unfold valid. rewrite Hc, Hp, He, Hf. rewrite Hch2 in Hv2c, Hv2t.
    repeat split; try assumption; lia.
  - unfold available, endOfData in *. rewrite Hc, Hp, He, Hf.
    rewrite Hch2 in Hav2. exact Hav2.
Qed.

(** ** Seeking *)

Lemma seek_failed s w s' :
  seek_ s w = (false, s') -> _pos s' = _bufferEnd s'.
Proof.
  unfold seek_, seek.
  destruct (op_pcm_seek _ _) as [result file'].
  destruct (result <? 0).
  - intros Heq. inversion Heq; subst. reflexivity.
  - intros Heq. apply fillBuffer_failed in Heq. tauto.
Qed.

(** C6: [seek] asks the codec for the frame the time position converts
    to at the rate of the decoder, 48000 once it has opened; when the
    codec seek fails the cursor is put at the end of the buffer, so
    that [endOfData] holds, and [false] is returned; when it succeeds
    the buffer is refilled at once and the result of the refill is
    returned. *)
Theorem seek_converts_then_refills s w result file' :
  getRate s = 48000 ->
  op_pcm_seek (_file s)
    (totalNumberOfFrames (convertTimeToStreamPos w 48000 false))
  = (result, file') ->
  (result < 0 ->
   exists s', seek_ s w = (false, s')
              /\ _pos s' = _bufferEnd s' /\ endOfData s' = true
              /\ _file s' = file')
  /\ (0 <= result ->
      seek_ s w
      = _fillBuffer (mkOpusStream (_channels s) (_rate s) (_length s) file'
                       (_buffer s) (_bufferEnd s) (_pos s) (_console s))).
Proof.
  intros Hrate Hseek. unfold seek_, seek. rewrite Hrate, Hseek.
  destruct (Z.ltb_spec result 0) as [Hneg | Hok]; split; intros Hres;
    try lia.
  - eexists. split; [reflexivity |].
    unfold endOfData. cbn [_pos _bufferEnd _file].
    repeat split. apply Z.leb_refl.
  - reflexivity.
Qed.

(** ** Format *)

Lemma step_format c s s' :
  step_ c s = Done s' ->
  _channels s' = _channels s /\ _rate s' = _rate s.
Proof.
  destruct c as [n | w]; cbn [step_ step].
  - unfold step_, step.
    destruct (readBuffer s n) as [[[k out] s1] | |] eqn:Hread;
      try discriminate.
    intros Heq. inversion Heq; subst.
    unfold readBuffer in Hread. apply read_loop_returns in Hread. tauto.
  - unfold step_, step. intros Heq. inversion Heq; subst.
    unfold seek. destruct (op_pcm_seek _ _) as [result file'].
    destruct (result <? 0); [cbn; auto |].
    pose proof (fillBuffer_format
                  (mkOpusStream (_channels s) (_rate s) (_length s) file'
                     (_buffer s) (_bufferEnd s) (_pos s) (_console s)))
      as Hfmt.
    cbn zeta in Hfmt. cbn in Hfmt. tauto.
Qed.

Lemma run_format cs :
  forall s s',
    run_ cs s = Done s' ->
    _channels s' = _channels s /\ _rate s' = _rate s.
Proof.
  induction cs as [| c rest IH]; intros s s' Hrun.
  - inversion Hrun; subst. auto.
  - unfold run_ in Hrun. cbn [run] in Hrun.
    destruct (step convertTimeToStreamPos totalNumberOfFrames c s)
      as [s1 | |] eqn:Hstep; try discriminate.
    apply step_format in Hstep. apply IH in Hrun.
    destruct Hstep, Hrun. split; congruence.
Qed.

(** C7: once the codec has opened the stream, the channel count is the
    one the codec reported and the rate is 48000, whatever rate the
    source was encoded at, and [isStereo] and [getRate] stay what they
    were after construction through every sequence of [readBuffer] and
    [seek] calls. *)
Theorem format_is_fixed mem stream result file cs s' :
  op_open_callbacks stream g_stream_callbacks = (result, file) ->
  0 <= result ->
  run_ cs (new mem stream) = Done s' ->
  getRate (new mem stream) = 48000
  /\ getRate s' = 48000
  /\ isStereo s' = isStereo (new mem stream)
  /\ _channels s' = to_byte (op_channel_count file (-1)).
Proof.
  intros Hopen Hres Hrun.
  pose proof (new_opened mem stream result file Hopen Hres) as Hnew.
  cbn zeta in Hnew. destruct Hnew as (Hc & Hr & _).
  apply run_format in Hrun. destruct Hrun as [Hc' Hr'].
  unfold getRate, isStereo. rewrite Hr', Hc', Hr, Hc. auto.
Qed.

(** ** No call spins *)

Lemma new_near mem stream :
  _bufferEnd (new mem stream) - _pos (new mem stream) < two32.
Proof.
  rewrite new_unfold.
  destruct (op_open_callbacks stream g_stream_callbacks) as [result file].
  destruct (result <? 0); [cbn [_bufferEnd _pos]; unfold two32; lia |].
  destruct (_fillBuffer (before_first_fill mem file)) as [ok s2] eqn:Hfill.
  destruct ok; cbn [negb _bufferEnd _pos].
  - apply fillBuffer_succeeded in Hfill. lia.
  - apply fillBuffer_failed in Hfill. unfold two32. lia.
Qed.

Lemma step_near c s s' :
  _bufferEnd s - _pos s < two32 ->
  step_ c s = Done s' ->
  _bufferEnd s' - _pos s' < two32.
Proof.
  intros Hd. destruct c as [n | w]; unfold step_, step.
  - destruct (readBuffer s n) as [[[k out] s1] | |] eqn:Hread;
      try discriminate.
    intros Heq. inversion Heq; subst.
    unfold readBuffer in Hread. apply read_loop_near in Hread; assumption.
  - intros Heq. inversion Heq; subst. clear Heq.
    destruct (seek convertTimeToStreamPos totalNumberOfFrames s w)
      as [ok s1] eqn:Hseek.
    cbn [snd]. destruct ok.
    + unfold seek in Hseek. destruct (op_pcm_seek _ _) as [result file'].
      destruct (result <? 0); [discriminate |].
      apply fillBuffer_succeeded in Hseek. lia.
    + apply seek_failed in Hseek. unfold two32. lia.
Qed.

(** Every sequence of reads and seeks on a decoder the constructor has
    built runs to its end or to the fault of a read. *)
Lemma run_progress cs :
  forall s,
    _bufferEnd s - _pos s < two32 -> run_ cs s <> NoProgress.
Proof.
  induction cs as [| c rest IH]; intros s Hd; unfold run_; cbn [run];
    [discriminate |].
  destruct (step convertTimeToStreamPos totalNumberOfFrames c s)
    as [s1 | |] eqn:Hstep.
  - apply IH. apply (step_near c s s1 Hd Hstep).
  - discriminate.
  - exfalso. destruct c as [n | w]; unfold step in Hstep.
    + pose proof (readBuffer_progress s n Hd) as Hp.
      destruct (readBuffer s n) as [[[k out] s2] | |]; try discriminate.
      apply Hp. reflexivity.
    + discriminate.
Qed.

(** ** Factory *)

Lemma new_first_fill_failed mem stream result file :
  op_open_callbacks stream g_stream_callbacks = (result, file) ->
  0 <= result ->
  fst (_fillBuffer (before_first_fill mem file)) = false ->
  endOfData (new mem stream) = true.
Proof.
  intros Hopen Hres Hfail.
  pose proof (new_opened mem stream result file Hopen Hres) as Hnew.
  cbn zeta in Hnew. destruct Hnew as (_ & _ & Hp & He & _).
  destruct (_fillBuffer (before_first_fill mem file)) as [ok s2] eqn:Hfill.
  cbn [fst snd] in *. subst ok.
  apply fillBuffer_failed in Hfill. destruct Hfill as [Hpos _].
  unfold endOfData. rewrite Hp, He, Hpos. apply Z.leb_refl.
Qed.

(** The branch of the factory: it returns the null pointer exactly when
    the decoder it has just constructed reports the end of the data,
    which is the
    case whenever the codec could not open the source or the first fill
    failed, and returns that decoder otherwise.  A decoder it returns
    does not report the end of the data, comes from an open and a first
    fill that succeeded and, when it is in working order, delivers at
    least one sample to every read that asks for one. *)
Theorem factory_returns_null_at_end mem stream result file :
  op_open_callbacks stream g_stream_callbacks = (result, file) ->
  (endOfData (new mem stream) = true -> make mem stream = None)
  /\ (endOfData (new mem stream) = false ->
      make mem stream = Some (new mem stream))
  /\ (result < 0 -> make mem stream = None)
  /\ (0 <= result ->
      fst (_fillBuffer (before_first_fill mem file)) = false ->
      make mem stream = None)
  /\ (forall d,
        make mem stream = Some d ->
        d = new mem stream /\ endOfData d = false /\ 0 <= result
        /\ fst (_fillBuffer (before_first_fill mem file)) = true
        /\ (valid d ->
            forall n, 0 < n ->
              exists k out d',
                readBuffer d n = Done (k, out, d') /\ 0 < k)).
Proof.
  intros Hopen.
  assert (Hend : endOfData (new mem stream) = true -> make mem stream = None).
  { intros He. unfold make, makeOpusStream. fold new. rewrite He. reflexivity. }
  assert (Hfailed : result < 0 -> endOfData (new mem stream) = true).
  { intros Hneg. rewrite (new_open_failed _ _ _ _ Hopen Hneg).
    unfold endOfData. cbn [_pos _bufferEnd]. apply Z.leb_refl. }
  split; [exact Hend |]. split; [| split; [| split]].
  - intros He. unfold make, makeOpusStream. fold new. rewrite He. reflexivity.
  - intros Hneg. apply Hend, Hfailed, Hneg.
  - intros Hres Hfail. apply Hend.
    apply (new_first_fill_failed _ _ _ _ Hopen Hres Hfail).
  - intros d Hmake. unfold make, makeOpusStream in Hmake. fold new in Hmake.
    destruct (endOfData (new mem stream)) eqn:He; [discriminate |].
    inversion Hmake; subst d.
    assert (Hres : 0 <= result).
    { destruct (Z_lt_le_dec result 0) as [Hneg | Hge]; [| exact Hge].
      apply Hfailed in Hneg. congruence. }
    assert (Hfill : fst (_fillBuffer (before_first_fill mem file)) = true).
    { destruct (fst (_fillBuffer (before_first_fill mem file))) eqn:Hf;
        [reflexivity |].
      pose proof (new_first_fill_failed _ _ _ _ Hopen Hres Hf). congruence. }
    repeat split; try assumption.
    intros Hv n Hn.
    destruct (readBuffer_valid (new mem stream) n Hv)
      as (k & out & d' & Hread & Hk & _).
    exists k, out, d'. split; [exact Hread |].
    pose proof (available_nonneg _ Hv) as Hnn.
    pose proof (endOfData_available _ Hv) as Hiff.
    assert (available (new mem stream) <> 0).
    { intros Hz. apply Hiff in Hz. congruence. }
    lia.
Qed.

(** ** End of data *)

(** C4: [endOfData] holds exactly when the cursor has reached the end of
    the buffer.  A fill that fails leaves the cursor at the end of the
    buffer.  Once [endOfData] holds, a read returns at once and changes
    nothing, and a seek that returns [false] leaves it holding: only a
    seek that returns [true] can make it false again.  After the codec
    has opened a well-behaved stream that is not empty, [endOfData] is
    false. *)
Theorem endOfData_is_stable s :
  (endOfData s = true <-> _bufferEnd s <= _pos s)
  /\ (forall s', _fillBuffer s = (false, s') ->
                 _pos s' = _bufferEnd s' /\ endOfData s' = true)
  /\ (endOfData s = true ->
      forall c, exists s',
        step_ c s = Done s'
        /\ (endOfData s' = true
            \/ exists w, c = Seek w /\ fst (seek_ s w) = true))
  /\ (forall mem stream result file,
        op_open_callbacks stream g_stream_callbacks = (result, file) ->
        0 <= result ->
        1 <= to_byte (op_channel_count file (-1)) ->
        clean (to_byte (op_channel_count file (-1))) 0 (of_pending file)
        = true ->
        of_pending file <> [] ->
        endOfData (new mem stream) = false).
Proof.
  split; [| split; [| split]].
  - unfold endOfData. apply Z.leb_le.
  - intros s' Hfill. apply fillBuffer_failed in Hfill.
    destruct Hfill as [Hpos _]. split; [exact Hpos |].
    unfold endOfData. rewrite Hpos. apply Z.leb_refl.
  - intros Hend [n | w].
    + exists s. unfold step_, step, readBuffer.
  rewrite (read_loop_at_end _ s n Hend).
      split; [reflexivity | left; exact Hend].
    + exists (snd (seek_ s w)). split; [reflexivity |].
      destruct (seek_ s w) as [ok s'] eqn:Hseek. cbn [fst snd].
      destruct ok.
      * right. exists w. rewrite Hseek. split; reflexivity.
      * left. apply seek_failed in Hseek.
        unfold endOfData. rewrite Hseek. apply Z.leb_refl.
  - intros mem stream result file Hopen Hres Hch Hclean Hne.
    destruct (new_valid mem stream result file Hopen Hres Hch Hclean)
      as [Hv Hav].
    destruct (endOfData (new mem stream)) eqn:He; [| reflexivity].
    apply (endOfData_available _ Hv) in He. rewrite Hav in He.
    destruct (of_pending file) as [| e rest]; [congruence |].
    pose proof (total_positive _ _ _ _ Hch Hclean). lia.
Qed.

End DecoderFacts.

(** ** Read *)

(** C3: on a valid decoder every [readBuffer] call returns; the count it
    returns is between 0 and the count asked for, is the number of samples
    it has copied to the destination, and is the count asked for unless
    fewer samples are left.  Over repeated calls the counts add up to the
    samples asked for or to all the samples of the stream, whichever is
    less, and [endOfData] holds afterwards exactly when they have added up
    to all the samples of the stream. *)
Theorem readBuffer_counts_samples (s : OpusStream) (reqs : list Z) :
  valid s ->
  Forall (fun n => 0 <= n) reqs ->
  (forall n, 0 <= n ->
     exists k out s',
       readBuffer s n = Done (k, out, s')
       /\ 0 <= k <= n
       /\ Z.of_nat (List.length out) = k
       /\ k = Z.min n (available s))
  /\ exists t out s',
       readAll s reqs = Done (t, out, s')
       /\ Z.of_nat (List.length out) = t
       /\ t = Z.min (sumZ reqs) (available s)
       /\ (endOfData s' = true <-> t = available s).
Proof.
  intros Hv Hreqs. pose proof (available_nonneg s Hv) as Hnn. split.
  - intros n Hn.
    destruct (readBuffer_valid s n Hv) as (k & out & s' & Hread & Hk & Hout & _).
    exists k, out, s'. repeat split; try assumption; lia.
  - destruct (readAll_valid reqs s Hv Hreqs)
      as (t & out & s' & Hall & Ht & Hout & Hv' & Hav').
    exists t, out, s'. repeat split; try assumption.
    + intros He. apply (endOfData_available s' Hv') in He. lia.
    + intros He. apply (endOfData_available s' Hv'). lia.
Qed.

(** X13: whatever the state of the decoder, a [readBuffer] call that
    returns has counted between 0 and what was asked for and has copied
    what it counted. *)
Lemma readBuffer_returns s n k out s' :
  readBuffer s n = Done (k, out, s') ->
  0 <= k <= Z.max 0 n /\ Z.of_nat (List.length out) = k.
Proof.
  unfold readBuffer. intros Hread. apply read_loop_returns in Hread.
  cbn [List.length] in Hread. lia.
Qed.

(** ** A hole in the data *)

Lemma to_uint32_neg x : 0 < x <= two32 -> to_uint32 (- x) = two32 - x.
Proof.
  intros Hx. unfold to_uint32. symmetry.
  apply Z.mod_unique with (q := -1); lia.
Qed.

(** A hole reported by the first [op_read] of a fill: the count wraps
    around and the loop ends without a further [op_read]. *)
Lemma fill_loop_hole_first ch pcm rest buf con :
  1 <= ch <= 255 ->
  fill_loop ch (mkEvent OP_HOLE pcm :: rest) buf con 0
  = mkFill true (two32 - 3 * ch) (store buf 0 pcm) rest (con ++ [hole_warning]).
Proof.
  intros Hch. cbn [fill_loop ev_result ev_pcm].
  change (0 <? bufferSize) with true. cbv iota.
  unfold after_read. change (OP_HOLE <? 0) with true.
  change (OP_HOLE =? OP_HOLE) with true. cbn [negb andb].
  change (OP_HOLE =? 0) with false. cbv iota.
  replace (0 + OP_HOLE * ch) with (- (3 * ch)) by (unfold OP_HOLE; lia).
  rewrite to_uint32_neg by (unfold two32; lia).
  rewrite fill_loop_full by (unfold two32, bufferSize; lia).
  reflexivity.
Qed.

(** A hole reported later in a fill: the loop goes on, with the count
    lowered by three samples per channel, so that the next [op_read]
    stores over the samples decoded last. *)
Lemma fill_loop_hole_later ch pcm rest buf con n :
  1 <= ch -> 3 * ch <= n < bufferSize ->
  fill_loop ch (mkEvent OP_HOLE pcm :: rest) buf con n
  = fill_loop ch rest (store buf n pcm) (con ++ [hole_warning]) (n - 3 * ch).
Proof.
  intros Hch Hn. cbn [fill_loop ev_result ev_pcm].
  destruct (Z.ltb_spec n bufferSize); [| lia].
  unfold after_read. change (OP_HOLE <? 0) with true.
  change (OP_HOLE =? OP_HOLE) with true. cbn [negb andb].
  change (OP_HOLE =? 0) with false. cbv iota.
  replace (n + OP_HOLE * ch) with (n - 3 * ch) by (unfold OP_HOLE; lia).
  rewrite to_uint32_small by (unfold two32, bufferSize in *; lia).
  reflexivity.
Qed.

(** C1, on the stream [Demo.hole_first] (stereo; the first decode call
    reports a hole, the three that would follow succeed): the hole is
    logged, but the fill makes no further decode call, the three packets
    stay on the trace; the end of the buffer is put 4294967290 samples
    past its start; the factory hands the decoder out, and its first read
    asks [memcpy] for a negative length. *)
Theorem hole_first_ends_fill :
  let s := Demo.open_stream Demo.hole_first Demo.good_source in
  makeOpusStream (Demo.open_oggs Demo.hole_first) Demo.raw Demo.good_source
  = Some s
  /\ of_pending (_file s) = repeat (Demo.packet 2 960 5) 3
  /\ _console s = [hole_warning]
  /\ _pos s = 0 /\ _bufferEnd s = 4294967290 /\ endOfData s = false
  /\ readBuffer s 1 = Fault.
Proof. vm_compute. repeat split; reflexivity. Qed.

(** ** Duration *)

(** X8: the duration set by the constructor once the first fill has
    succeeded: the whole seconds of the total frame count, as
    milliseconds, at 48000 frames a second. *)
Lemma getLength_whole_seconds {Src : Type} `{SeekableReadStream Src}
    (op_open_callbacks : Src -> OpusFileCallbacks Src -> Z * OggOpusFile)
    mem stream result file :
  op_open_callbacks stream g_stream_callbacks = (result, file) ->
  0 <= result ->
  fst (_fillBuffer (before_first_fill mem file)) = true ->
  getLength (OpusStream_new op_open_callbacks mem stream)
  = mkTimestamp (Z.quot (op_pcm_total file (-1)) 48000 * 1000) 48000.
Proof.
  intros Hopen Hres Hfill.
  pose proof (new_opened op_open_callbacks mem stream result file Hopen Hres)
    as Hnew.
  cbn zeta in Hnew. destruct Hnew as (_ & _ & _ & _ & _ & Hlen & _).
  apply Hlen, Hfill.
Qed.

(** C2, on the stream [Demo.half_second] (stereo, 24000 frames in all,
    that is 500 ms at 48000 frames a second): the decoder opens, and the
    duration it reports is 0 ms. *)
Theorem half_second_has_length_zero :
  let s := Demo.open_stream Demo.half_second Demo.good_source in
  op_pcm_total (_file s) (-1) = 24000
  /\ isStereo s = true /\ getRate s = 48000 /\ endOfData s = false
  /\ getLength s = mkTimestamp 0 48000.
Proof. vm_compute. repeat split; reflexivity. Qed.

(** ** The theorems at work on the example streams *)

Lemma half_second_opens :
  Demo.open_oggs Demo.half_second Demo.good_source g_stream_callbacks
  = (0, Demo.half_second).
Proof. reflexivity. Qed.

Lemma bad_source_rejected :
  Demo.open_oggs Demo.half_second Demo.bad_source g_stream_callbacks
  = (OP_ENOTFORMAT, Demo.half_second).
Proof. reflexivity. Qed.

Lemma half_second_valid :
  valid (Demo.open_stream Demo.half_second Demo.good_source)
  /\ available (Demo.open_stream Demo.half_second Demo.good_source) = 48000.
Proof.
  apply (new_valid (Demo.open_oggs Demo.half_second) Demo.raw Demo.good_source
                   0 Demo.half_second half_second_opens).
  - lia.
  - vm_compute. discriminate.
  - vm_compute. reflexivity.
Qed.

Lemma readBuffer_counts_samples_witness :
  exists t out s',
    readAll (Demo.open_stream Demo.half_second Demo.good_source)
            [20000; 20000; 20000]
    = Done (t, out, s')
    /\ Z.of_nat (List.length out) = 48000 /\ t = 48000
    /\ endOfData s' = true.
Proof.
  destruct half_second_valid as [Hv Hav].
  assert (Hreqs : Forall (fun n => 0 <= n) [20000; 20000; 20000])
    by (repeat constructor; lia).
  destruct (readBuffer_counts_samples _ [20000; 20000; 20000] Hv Hreqs)
    as [_ (t & out & s' & Hall & Hout & Ht & Hiff)].
  rewrite Hav in Ht, Hiff. cbn [sumZ fold_right] in Ht.
  assert (Ht' : t = 48000) by lia.
  exists t, out, s'.
  split; [exact Hall |]. split; [lia |]. split; [exact Ht' |].
  apply Hiff. exact Ht'.
Defined.

Lemma endOfData_is_stable_witness :
  endOfData (Demo.open_stream Demo.half_second Demo.good_source) = false
  /\ exists s',
       step Demo.convert_ms Demo.frames_ms (Seek (mkTimestamp 100 1000))
            (Demo.open_stream Demo.half_second Demo.bad_source)
       = Done s'
       /\ endOfData s' = true.
Proof.
  split.
  - apply (proj2 (proj2 (proj2
             (endOfData_is_stable (Demo.open_oggs Demo.half_second)
                Demo.convert_ms Demo.frames_ms Demo.raw)))
             Demo.raw Demo.good_source 0 Demo.half_second half_second_opens).
    + lia.
    + vm_compute. discriminate.
    + vm_compute. reflexivity.
    + discriminate.
  - destruct (proj1 (proj2 (proj2
                (endOfData_is_stable (Demo.open_oggs Demo.half_second)
                   Demo.convert_ms Demo.frames_ms
                   (Demo.open_stream Demo.half_second Demo.bad_source))))
                ltac:(vm_compute; reflexivity) (Seek (mkTimestamp 100 1000)))
      as (s' & Hstep & [Hend | (w & Hw & Hok)]).
    + exists s'. split; assumption.
    + exfalso. inversion Hw; subst w. vm_compute in Hok. discriminate Hok.
Defined.

Lemma factory_returns_null_at_end_witness :
  makeOpusStream (Demo.open_oggs Demo.half_second) Demo.raw Demo.bad_source
  = None
  /\ makeOpusStream (Demo.open_oggs Demo.half_second) Demo.raw
                    Demo.good_source
     = Some (Demo.open_stream Demo.half_second Demo.good_source).
Proof.
  split.
  - apply (proj1 (proj2 (proj2
             (factory_returns_null_at_end (Demo.open_oggs Demo.half_second)
                Demo.raw Demo.bad_source OP_ENOTFORMAT Demo.half_second
                bad_source_rejected)))).
    unfold OP_ENOTFORMAT. lia.
  - apply (proj1 (proj2
             (factory_returns_null_at_end (Demo.open_oggs Demo.half_second)
                Demo.raw Demo.good_source 0 Demo.half_second
                half_second_opens))).
    vm_compute. reflexivity.
Defined.

Lemma seek_converts_then_refills_witness :
  (exists s',
      seek Demo.convert_ms Demo.frames_ms
           (Demo.open_stream Demo.half_second Demo.good_source)
           (mkTimestamp 100 1000)
      = (false, s')
      /\ _pos s' = _bufferEnd s' /\ endOfData s' = true)
  /\ fst (seek Demo.convert_ms Demo.frames_ms
               (Demo.open_stream Demo.half_second Demo.good_source)
               (mkTimestamp 0 1000))
     = true.
Proof.
  split.
  - destruct (proj1
                (seek_converts_then_refills Demo.convert_ms Demo.frames_ms
                   (Demo.open_stream Demo.half_second Demo.good_source)
                   (mkTimestamp 100 1000) OP_EBADLINK
                   (with_pending
                      (_file (Demo.open_stream Demo.half_second
                                               Demo.good_source)) [])
                   ltac:(vm_compute; reflexivity)
                   ltac:(vm_compute; reflexivity))
                ltac:(unfold OP_EBADLINK; lia))
      as (s' & Hseek & Hpos & Hend & _).
    exists s'. repeat split; assumption.
  - rewrite (proj2
               (seek_converts_then_refills Demo.convert_ms Demo.frames_ms
                  (Demo.open_stream Demo.half_second Demo.good_source)
                  (mkTimestamp 0 1000) 0
                  (with_pending
                     (_file (Demo.open_stream Demo.half_second
                                              Demo.good_source))
                     (repeat (Demo.packet 2 960 5) 25))
                  ltac:(vm_compute; reflexivity)
                  ltac:(vm_compute; reflexivity))
               ltac:(lia)).
    vm_compute. reflexivity.
Defined.

Lemma format_is_fixed_witness :
  match run Demo.convert_ms Demo.frames_ms
            [Read 100; Seek (mkTimestamp 0 1000); Read 12000;
             Seek (mkTimestamp 100 1000); Read 5]
            (Demo.open_stream Demo.half_second Demo.good_source)
  with
  | Done s' => getRate s' = 48000 /\ isStereo s' = true
  | _ => False
  end.
Proof.
  destruct (run Demo.convert_ms Demo.frames_ms
              [Read 100; Seek (mkTimestamp 0 1000); Read 12000;
               Seek (mkTimestamp 100 1000); Read 5]
              (Demo.open_stream Demo.half_second Demo.good_source))
    as [s' | |] eqn:Hrun.
  - destruct (format_is_fixed (Demo.open_oggs Demo.half_second)
                Demo.convert_ms Demo.frames_ms Demo.raw Demo.good_source 0
                Demo.half_second _ s' half_second_opens ltac:(lia) Hrun)
      as (_ & Hrate & Hstereo & _).
    split; [exact Hrate |]. rewrite Hstereo. vm_compute. reflexivity.
  - vm_compute in Hrun. discriminate Hrun.
  - vm_compute in Hrun. discriminate Hrun.
Defined.

(** ** Further examples *)

(** An unrecoverable error in the first fill: the samples decoded before
    it are given up, the error is logged and the factory returns the null
    pointer. *)
Example error_in_first_fill :
  let f := Demo.no_seek 2 1920 [Demo.packet 2 960 5; Demo.bad_packet] in
  makeOpusStream (Demo.open_oggs f) Demo.raw Demo.good_source = None
  /\ endOfData (Demo.open_stream f Demo.good_source) = true
  /\ _console (Demo.open_stream f Demo.good_source)
     = ["Error reading from Opus stream: Failed to decode audio packet"%string].
Proof. vm_compute. repeat split; reflexivity. Qed.

(** A hole after the first packet of a fill: the count goes back by six
    samples and the fill ends with 2 * 1920 - 6 samples counted. *)
Example hole_after_first_packet :
  let f := Demo.no_seek 2 1920
             [Demo.packet 2 960 5; Demo.hole; Demo.packet 2 960 6] in
  _bufferEnd (Demo.open_stream f Demo.good_source) = 3834
  /\ endOfData (Demo.open_stream f Demo.good_source) = false.
Proof. vm_compute. split; reflexivity. Qed.

(** * Further properties of the decoder *)

(** ** Samples come out as they were decoded *)

Lemma firstn_add {A : Type} (a b : nat) (l : list A) :
  firstn (a + b) l = firstn a l ++ firstn b (skipn a l).
Proof.
  revert l. induction a as [| a IH]; intros l; [reflexivity |].
  destruct l as [| x l]; cbn [Nat.add firstn skipn app].
  - rewrite firstn_nil. reflexivity.
  - rewrite IH. reflexivity.
Qed.

(** Storing within the array: the samples before the offset stay, the
    stored ones follow them. *)
Lemma store_prefix buf off pcm :
  0 <= off ->
  (Z.to_nat off + List.length pcm <= List.length buf)%nat ->
  firstn (Z.to_nat off + List.length pcm) (store buf off pcm)
  = firstn (Z.to_nat off) buf ++ pcm.
Proof.
  intros Hoff Hfit. unfold store.
  rewrite (firstn_all2 (n := List.length buf)).
  - rewrite app_assoc.
    assert (Hlen : List.length (firstn (Z.to_nat off) buf ++ pcm)
                   = (Z.to_nat off + List.length pcm)%nat).
    { rewrite length_app, length_firstn. lia. }
    rewrite <- Hlen at 1. rewrite firstn_app, firstn_all, Nat.sub_diag.
    cbn [firstn]. rewrite app_nil_r. reflexivity.
  - rewrite !length_app, length_firstn, length_skipn. lia.
Qed.

Lemma clean_decoded_length ch tr :
  forall n, clean ch n tr = true ->
            Z.of_nat (List.length (decoded tr)) = total ch tr.
Proof.
  induction tr as [| e rest IH]; intros n Hc; [reflexivity |].
  apply clean_cons in Hc. destruct Hc as (_ & _ & Hlen & Hrest).
  unfold decoded in *. cbn [map List.concat total fold_right].
  rewrite length_app, Nat2Z.inj_add, Hlen, (IH _ Hrest). reflexivity.
Qed.

(** A fill of a well-behaved trace keeps the array and puts the samples
    of the events it takes behind those already counted. *)
Lemma fill_loop_content ch pending :
  forall buf con n,
    1 <= ch -> 0 <= n < bufferSize -> clean ch n pending = true ->
    Z.of_nat (List.length buf) = bufferSize ->
    let r := fill_loop ch pending buf con n in
    Z.of_nat (List.length (fill_buffer r)) = bufferSize
    /\ firstn (Z.to_nat (fill_samplesRead r)) (fill_buffer r)
         ++ decoded (fill_pending r)
       = firstn (Z.to_nat n) buf ++ decoded pending.
Proof.
  induction pending as [| e rest IH]; intros buf con n Hch Hn Hc Hbuf;
    cbn zeta.
  - cbn [fill_loop]. destruct (Z.ltb_spec n bufferSize); [| lia].
    cbn [fill_buffer fill_samplesRead fill_pending]. auto.
  - pose proof Hc as Hc'. apply clean_cons in Hc'.
    destruct Hc' as (Hpos & Hfit & Hlen & Hrest).
    cbn [fill_loop]. destruct (Z.ltb_spec n bufferSize); [| lia].
    destruct (after_read_cases ch n (ev_result e))
      as [[_ [Hneg _]] | [[_ Hz] | [-> _]]]; try lia.
    assert (Hmul : 1 <= ev_result e * ch) by nia.
    rewrite to_uint32_small by (unfold two32, bufferSize in *; lia).
    assert (Hstore : Z.of_nat (List.length (store buf n (ev_pcm e)))
                     = bufferSize).
    { rewrite store_length by lia. exact Hbuf. }
    assert (Hpre : firstn (Z.to_nat (n + ev_result e * ch))
                          (store buf n (ev_pcm e))
                   = firstn (Z.to_nat n) buf ++ ev_pcm e).
    { replace (Z.to_nat (n + ev_result e * ch))
        with (Z.to_nat n + List.length (ev_pcm e))%nat by lia.
      apply store_prefix; lia. }
    unfold decoded at 2. cbn [map List.concat]. fold (decoded rest).
    rewrite app_assoc, <- Hpre.
    revert Hrest.
    destruct (Z.ltb_spec (n + ev_result e * ch) bufferSize) as [Hlt | Hge];
      intros Hrest.
    + apply IH; try assumption. lia.
    + rewrite fill_loop_full by lia.
      cbn [fill_buffer fill_samplesRead fill_pending]. auto.
Qed.

Lemma buffered_length s :
  0 <= _pos s <= _bufferEnd s -> _bufferEnd s <= bufferSize -> intact s ->
  Z.of_nat (List.length (buffered s)) = _bufferEnd s - _pos s.
Proof.
  intros Hp He Hi. unfold buffered, intact in *.
  rewrite length_firstn, length_skipn. lia.
Qed.

Lemma upcoming_length s :
  valid s -> intact s -> Z.of_nat (List.length (upcoming s)) = available s.
Proof.
  intros (Hch & Hpos & Hend & Hclean) Hi. unfold upcoming, available.
  destruct (endOfData s); [reflexivity |].
  rewrite length_app, Nat2Z.inj_add, (buffered_length s Hpos Hend Hi),
    (clean_decoded_length _ _ _ Hclean).
  reflexivity.
Qed.

(** What a refill of a valid decoder leaves to be delivered: the samples
    of the stream. *)
Lemma fillBuffer_content s s' :
  1 <= _channels s ->
  clean (_channels s) 0 (of_pending (_file s)) = true ->
  intact s ->
  _fillBuffer s = (true, s') ->
  intact s' /\ upcoming s' = decoded (of_pending (_file s)).
Proof.
  intros Hch Hclean Hi Hfill.
  pose proof (fill_loop_content (_channels s) (of_pending (_file s))
                (_buffer s) (_console s) 0 Hch
                ltac:(unfold bufferSize; lia) Hclean Hi) as Hc.
  pose proof (fill_loop_clean (_channels s) (of_pending (_file s))
                (_buffer s) (_console s) 0 Hch
                ltac:(unfold bufferSize; lia) Hclean) as Hf.
  cbn zeta in Hc, Hf. destruct Hc as [Hlen Hcontent].
  destruct Hf as (Hok & Hr & Hcl & _ & Hsum & Hzero).
  unfold _fillBuffer in Hfill. cbn zeta in Hfill. rewrite Hok in Hfill.
  inversion Hfill; subst s'. clear Hfill.
  split; [exact Hlen |].
  unfold upcoming, endOfData, buffered, with_pending.
  cbn [_pos _bufferEnd _buffer _file of_pending].
  set (r := fill_loop (_channels s) (of_pending (_file s)) (_buffer s)
                      (_console s) 0) in *.
  rewrite Z.sub_0_r. change (Z.to_nat 0) with 0%nat in *.
  cbn [skipn firstn app] in *.
  destruct (Z.leb_spec (fill_samplesRead r) 0) as [Hle | Hgt].
  - assert (Hnil : of_pending (_file s) = []) by (apply Hzero; lia).
    rewrite Hnil. reflexivity.
  - exact Hcontent.
Qed.

Lemma fetch_buffered s len :
  0 <= _pos s -> 0 <= len <= _bufferEnd s - _pos s ->
  _bufferEnd s <= bufferSize -> intact s ->
  fetch (_buffer s) (_pos s) len = firstn (Z.to_nat len) (buffered s).
Proof.
  intros Hp Hlen He Hi. unfold fetch, buffered, intact in *.
  rewrite firstn_firstn.
  replace (Nat.min (Z.to_nat len) (Z.to_nat (_bufferEnd s - _pos s)))
    with (Z.to_nat len) by lia.
  rewrite length_firstn, length_skipn.
  replace (Z.to_nat len
           - Nat.min (Z.to_nat len)
               (List.length (_buffer s) - Z.to_nat (_pos s)))%nat
    with 0%nat by lia.
  cbn [repeat]. apply app_nil_r.
Qed.

Lemma buffered_advance s len :
  0 <= _pos s -> 0 <= len <= _bufferEnd s - _pos s ->
  buffered (mkOpusStream (_channels s) (_rate s) (_length s) (_file s)
              (_buffer s) (_bufferEnd s) (_pos s + len) (_console s))
  = skipn (Z.to_nat len) (buffered s).
Proof.
  intros Hp Hlen. unfold buffered. cbn [_bufferEnd _pos _buffer].
  rewrite skipn_firstn_comm, skipn_skipn.
  replace (Z.to_nat (_bufferEnd s - _pos s) - Z.to_nat len)%nat
    with (Z.to_nat (_bufferEnd s - (_pos s + len))) by lia.
  replace (Z.to_nat len + Z.to_nat (_pos s))%nat
    with (Z.to_nat (_pos s + len)) by lia.
  reflexivity.
Qed.

Lemma firstn_app_long {A : Type} (n : nat) (l1 l2 : list A) :
  (List.length l1 <= n)%nat ->
  firstn n (l1 ++ l2) = l1 ++ firstn (n - List.length l1) l2.
Proof.
  intros Hle. rewrite firstn_app, firstn_all2 by exact Hle. reflexivity.
Qed.

Lemma skipn_app_long {A : Type} (n : nat) (l1 l2 : list A) :
  (List.length l1 <= n)%nat ->
  skipn n (l1 ++ l2) = skipn (n - List.length l1) l2.
Proof.
  intros Hle. rewrite skipn_app, skipn_all2 by exact Hle. reflexivity.
Qed.

Lemma firstn_app_short {A : Type} (n : nat) (l1 l2 : list A) :
  (n <= List.length l1)%nat -> firstn n (l1 ++ l2) = firstn n l1.
Proof.
  intros Hle. rewrite firstn_app.
  replace (n - List.length l1)%nat with 0%nat by lia.
  cbn [firstn]. apply app_nil_r.
Qed.

Lemma skipn_app_short {A : Type} (n : nat) (l1 l2 : list A) :
  (n <= List.length l1)%nat -> skipn n (l1 ++ l2) = skipn n l1 ++ l2.
Proof.
  intros Hle. rewrite skipn_app.
  replace (n - List.length l1)%nat with 0%nat by lia. reflexivity.
Qed.

(** The loop of [readBuffer] on a valid decoder copies the samples that
    were to come, in their order, and leaves the rest to come. *)
Lemma read_loop_content fuel :
  forall s n samples out k o s',
    valid s -> intact s ->
    read_loop fuel s n samples out = Done (k, o, s') ->
    o = out ++ firstn (Z.to_nat (k - samples)) (upcoming s)
    /\ upcoming s' = skipn (Z.to_nat (k - samples)) (upcoming s)
    /\ intact s'.
Proof.
  induction fuel as [| fuel IH]; intros s n samples out k o s' Hv Hi Hrun;
    cbn [read_loop] in Hrun;
    destruct ((samples <? n) && (_pos s <? _bufferEnd s)) eqn:Hcond;
    try discriminate;
    try (inversion Hrun; subst; rewrite Z.sub_diag;
         change (Z.to_nat 0) with 0%nat; cbn [firstn skipn];
         rewrite app_nil_r; auto).
  apply andb_prop in Hcond. destruct Hcond as [Hs Hp].
  apply Z.ltb_lt in Hs. apply Z.ltb_lt in Hp.
  pose proof Hv as (Hch & Hpos & Hend & Hclean).
  assert (He : endOfData s = false) by (apply Z.leb_gt; exact Hp).
  pose proof (buffered_length s Hpos Hend Hi) as Hbl.
  cbn zeta in Hrun.
  rewrite to_int32_small in Hrun by (unfold two31, bufferSize in *; lia).
  rewrite MIN_spec in Hrun.
  set (len := Z.min (n - samples) (_bufferEnd s - _pos s)) in *.
  assert (Hlen : 0 < len <= _bufferEnd s - _pos s) by (unfold len; lia).
  destruct (Z.ltb_spec len 0); [lia |].
  rewrite (fetch_buffered s len) in Hrun by first [lia | exact Hi].
  cbn [_bufferEnd _pos] in Hrun.
  assert (Hup : upcoming s = buffered s ++ decoded (of_pending (_file s))).
  { unfold upcoming. rewrite He. reflexivity. }
  destruct (Z.leb_spec (_bufferEnd s) (_pos s + len)) as [Hfull | Hpart].
  - set (s1 := mkOpusStream (_channels s) (_rate s) (_length s) (_file s)
                 (_buffer s) (_bufferEnd s) (_pos s + len) (_console s))
      in *.
    destruct (fillBuffer_valid s1 Hch Hclean) as (s2 & Hfill & Hv2 & _).
    destruct (fillBuffer_content s1 s2 Hch Hclean Hi Hfill) as [Hi2 Hup2].
    cbn [s1 _file] in Hup2.
    rewrite Hfill in Hrun.
    pose proof (read_loop_returns _ _ _ _ _ _ _ _ Hrun) as (Hk & _).
    destruct (IH _ _ _ _ _ _ _ Hv2 Hi2 Hrun) as (Ho & Hrest & Hi').
    assert (Hall : firstn (Z.to_nat len) (buffered s) = buffered s)
      by (apply firstn_all2; lia).
    rewrite Hall in Ho. rewrite Hup2 in Ho, Hrest. rewrite Hup.
    rewrite firstn_app_long, skipn_app_long by lia.
    replace (Z.to_nat (k - samples) - List.length (buffered s))%nat
      with (Z.to_nat (k - (samples + len))) by lia.
    rewrite app_assoc. auto.
  - rewrite read_loop_stop in Hrun
      by (apply andb_false_iff; left; apply Z.ltb_ge; unfold len in *; lia).
    inversion Hrun; subst k o s'. clear Hrun.
    replace (samples + len - samples) with len by lia.
    rewrite Hup.
    rewrite firstn_app_short, skipn_app_short by lia.
    split; [reflexivity |]. split; [| exact Hi].
    unfold upcoming, endOfData. cbn [_bufferEnd _pos _file].
    destruct (Z.leb_spec (_bufferEnd s) (_pos s + len)); [lia |].
    rewrite (buffered_advance s len) by lia. reflexivity.
Qed.

Lemma readBuffer_content s n k out s' :
  valid s -> intact s ->
  readBuffer s n = Done (k, out, s') ->
  out = firstn (Z.to_nat k) (upcoming s)
  /\ upcoming s' = skipn (Z.to_nat k) (upcoming s)
  /\ intact s'.
Proof.
  intros Hv Hi Hread. unfold readBuffer in Hread.
  apply (read_loop_content _ _ _ _ _ _ _ _ Hv Hi) in Hread.
  rewrite Z.sub_0_r in Hread. exact Hread.
Qed.

Lemma readAll_content reqs :
  forall s t out s',
    valid s -> intact s -> Forall (fun n => 0 <= n) reqs ->
    readAll s reqs = Done (t, out, s') ->
    out = firstn (Z.to_nat t) (upcoming s)
    /\ upcoming s' = skipn (Z.to_nat t) (upcoming s).
Proof.
  induction reqs as [| n rest IH]; intros s t out s' Hv Hi Hreqs Hall.
  - cbn [readAll] in Hall. inversion Hall; subst. auto.
  - inversion Hreqs as [| n' rest' Hn Hrest]; subst.
    cbn [readAll] in Hall.
    destruct (readBuffer_valid s n Hv)
      as (k & o1 & s1 & Hread & Hk & _ & Hv1 & _).
    rewrite Hread in Hall.
    destruct (readBuffer_content s n k o1 s1 Hv Hi Hread) as (Ho1 & Hup1 & Hi1).
    destruct (readAll s1 rest) as [[[t2 o2] s2] | |] eqn:Hall2;
      try discriminate.
    inversion Hall; subst t out s'. clear Hall.
    destruct (IH s1 t2 o2 s2 Hv1 Hi1 Hrest Hall2) as [Ho2 Hup2].
    pose proof (available_nonneg s Hv) as Hav.
    destruct (readAll_valid rest s1 Hv1 Hrest)
      as (t2' & o2' & s2' & Hall2' & Ht2 & _).
    rewrite Hall2 in Hall2'.
    assert (Ht2e : t2 = t2') by congruence. clear Hall2'.
    pose proof (available_nonneg s1 Hv1) as Hav1.
    pose proof (sumZ_nonneg rest Hrest) as Hsum.
    assert (Hk0 : 0 <= k) by lia. assert (Ht0 : 0 <= t2) by lia.
    rewrite Z2Nat.inj_add by assumption.
    rewrite firstn_add, <- Hup1, <- Ho1, <- Ho2.
    rewrite Nat.add_comm, <- skipn_skipn, <- Hup1.
    auto.
Qed.

Lemma readBuffer_valid_content s n :
  valid s -> intact s ->
  exists k out s',
    readBuffer s n = Done (k, out, s')
    /\ k = Z.min (Z.max 0 n) (available s)
    /\ out = firstn (Z.to_nat k) (upcoming s)
    /\ upcoming s' = skipn (Z.to_nat k) (upcoming s)
    /\ valid s' /\ intact s'
    /\ available s' = available s - k.
Proof.
  intros Hv Hi.
  destruct (readBuffer_valid s n Hv)
    as (k & out & s' & Hread & Hk & _ & Hv' & Hav & _).
  destruct (readBuffer_content s n k out s' Hv Hi Hread) as (Ho & Hup & Hi').
  exists k, out, s'. auto 10.
Qed.

(** X1: a read on a valid decoder delivers the samples that were to come,
    in their order and unchanged: first what is left in the buffer, then
    what the codec decodes; what it does not deliver is still to come. *)
Theorem readBuffer_in_order (s : OpusStream) (n : Z) :
  valid s -> intact s ->
  exists k out s',
    readBuffer s n = Done (k, out, s')
    /\ k = Z.min (Z.max 0 n) (available s)
    /\ out = firstn (Z.to_nat k) (upcoming s)
    /\ upcoming s' = skipn (Z.to_nat k) (upcoming s)
    /\ valid s' /\ intact s'.
Proof.
  intros Hv Hi.
  destruct (readBuffer_valid_content s n Hv Hi)
    as (k & out & s' & Hread & Hk & Ho & Hup & Hv' & Hi' & _).
  exists k, out, s'. auto 10.
Qed.

(** X2: reading in two steps is reading in one: on a valid decoder two
    reads of [a] and [b] samples deliver together what one read of
    [a + b] samples delivers, and leave the same samples to come. *)
Theorem readBuffer_chunks (s : OpusStream) (a b : Z) :
  valid s -> intact s -> 0 <= a -> 0 <= b ->
  exists k1 o1 s1 k2 o2 s2 s3,
    readBuffer s a = Done (k1, o1, s1)
    /\ readBuffer s1 b = Done (k2, o2, s2)
    /\ readBuffer s (a + b) = Done (k1 + k2, o1 ++ o2, s3)
    /\ upcoming s3 = upcoming s2.
Proof.
  intros Hv Hi Ha Hb.
  destruct (readBuffer_valid_content s a Hv Hi)
    as (k1 & o1 & s1 & Hr1 & Hk1 & Ho1 & Hu1 & Hv1 & Hi1 & Hav1).
  destruct (readBuffer_valid_content s1 b Hv1 Hi1)
    as (k2 & o2 & s2 & Hr2 & Hk2 & Ho2 & Hu2 & _).
  destruct (readBuffer_valid_content s (a + b) Hv Hi)
    as (k3 & o3 & s3 & Hr3 & Hk3 & Ho3 & Hu3 & _).
  pose proof (available_nonneg s Hv) as Hav.
  pose proof (available_nonneg s1 Hv1) as Hav1'.
  assert (Hk : k3 = k1 + k2) by lia.
  assert (Hk1' : 0 <= k1) by lia. assert (Hk2' : 0 <= k2) by lia.
  exists k1, o1, s1, k2, o2, s2, s3.
  split; [exact Hr1 |]. split; [exact Hr2 |].
  assert (Ho : o3 = o1 ++ o2).
  { rewrite Ho3, Hk, Z2Nat.inj_add, firstn_add, <- Hu1, <- Ho1, <- Ho2
      by assumption. reflexivity. }
  split; [rewrite Hr3, Hk, Ho; reflexivity |].
  rewrite Hu3, Hu2, Hu1, skipn_skipn, Hk, Z2Nat.inj_add by assumption.
  f_equal. lia.
Qed.

(** ** An error in the middle of a fill *)

Lemma fill_loop_error ch err rest pre :
  forall buf con n,
    1 <= ch -> 0 <= n ->
    clean ch n pre = true ->
    n + total ch pre < bufferSize ->
    ev_result err < 0 -> ev_result err <> OP_HOLE ->
    let r := fill_loop ch (pre ++ err :: rest) buf con n in
    fill_ok r = false
    /\ fill_pending r = rest
    /\ fill_console r
       = con ++ [warning "Error reading from Opus stream: "
                         (opusError (ev_result err))].
Proof.
  induction pre as [| e pre IH]; intros buf con n Hch Hn Hc Hroom Hneg Hnh;
    cbn zeta; cbn [app fill_loop].
  - cbn [total fold_right] in Hroom.
    destruct (Z.ltb_spec n bufferSize); [| lia].
    destruct (after_read_cases ch n (ev_result err))
      as [[-> _] | [[_ Hz] | [_ [Hp | Hh]]]]; try lia; try contradiction.
    cbn [fill_ok fill_pending fill_console]. unfold read_warning.
    destruct (Z.ltb_spec (ev_result err) 0); [auto | lia].
  - pose proof Hc as Hc'. apply clean_cons in Hc'.
    destruct Hc' as (Hpos & Hfit & _ & Hrest).
    cbn [total fold_right] in Hroom. fold (total ch pre) in Hroom.
    assert (Hmul : 1 <= ev_result e * ch) by nia.
    assert (Hnn : 0 <= total ch pre).
    { apply (total_nonneg ch pre _ Hch Hrest). }
    destruct (Z.ltb_spec n bufferSize); [| lia].
    destruct (after_read_cases ch n (ev_result e))
      as [[_ [Hneg' _]] | [[_ Hz] | [-> _]]]; try lia.
    assert (Hw : read_warning (ev_result e) = []).
    { unfold read_warning.
      destruct (Z.ltb_spec (ev_result e) 0); [lia | reflexivity]. }
    rewrite Hw, app_nil_r.
    rewrite to_uint32_small by (unfold two32, bufferSize in *; lia).
    revert Hrest.
    destruct (Z.ltb_spec (n + ev_result e * ch) bufferSize); [| lia].
    intros Hrest. apply IH; try assumption; lia.
Qed.

(** X5: an unrecoverable error after some packets of a fill makes the
    fill fail: the error is logged with its text, the packets decoded
    before it in that fill are given up, the decoder reports the end of
    the data, and every later read returns 0. *)
Theorem fillBuffer_error_poisons (s : OpusStream) (pre : list op_event)
    (err : op_event) (rest : list op_event) :
  1 <= _channels s ->
  of_pending (_file s) = pre ++ err :: rest ->
  clean (_channels s) 0 pre = true ->
  total (_channels s) pre < bufferSize ->
  ev_result err < 0 -> ev_result err <> OP_HOLE ->
  exists s',
    _fillBuffer s = (false, s')
    /\ endOfData s' = true
    /\ of_pending (_file s') = rest
    /\ _console s'
       = _console s ++ [warning "Error reading from Opus stream: "
                                (opusError (ev_result err))]
    /\ forall n, readBuffer s' n = Done (0, [], s').
Proof.
  intros Hch Hp Hc Hroom Hneg Hnh.
  pose proof (fill_loop_error (_channels s) err rest pre (_buffer s)
                (_console s) 0 Hch ltac:(lia) Hc ltac:(lia) Hneg Hnh) as Hf.
  cbn zeta in Hf. destruct Hf as (Hok & Hpend & Hcon).
  unfold _fillBuffer. cbn zeta. rewrite Hp, Hok.
  eexists. split; [reflexivity |].
  assert (He : forall b f c,
             endOfData (mkOpusStream (_channels s) (_rate s) (_length s) f b
                          (_bufferEnd s) (_bufferEnd s) c) = true).
  { intros. unfold endOfData. cbn [_pos _bufferEnd]. apply Z.leb_refl. }
  split; [apply He |]. split; [exact Hpend |]. split; [exact Hcon |].
  intros n. unfold readBuffer. apply read_loop_at_end, He.
Qed.

(** ** The adapter and large offsets *)

(** X11: the seek callback passes the offset on as an [int32]; two
    offsets that differ by a multiple of 2^32 give the same seek. *)
Theorem seek_callback_wraps_offset {Src : Type} `{SeekableReadStream Src}
    (src : Src) (offset k whence : Z) :
  seek_stream_callback src (offset + k * two32) whence
  = seek_stream_callback src offset whence.
Proof.
  unfold seek_stream_callback, to_int32.
  rewrite Z.mod_add by (unfold two32; lia). reflexivity.
Qed.

(** ** A read that the buffer can serve *)


(** ** From the factory to the last sample *)

Section StreamFacts.
Context {Src : Type} `{SeekableReadStream Src}.
Variable op_open_callbacks : Src -> OpusFileCallbacks Src -> Z * OggOpusFile.
Variable convertTimeToStreamPos : Timestamp -> Z -> bool -> Timestamp.
Variable totalNumberOfFrames : Timestamp -> Z.

(** The decoder the constructor builds on a well-behaved stream: its
    console and what it is about to deliver. *)
Lemma new_content mem stream result file :
  op_open_callbacks stream g_stream_callbacks = (result, file) ->
  0 <= result ->
  1 <= to_byte (op_channel_count file (-1)) ->
  clean (to_byte (op_channel_count file (-1))) 0 (of_pending file) = true ->
  intact mem ->
  intact (OpusStream_new op_open_callbacks mem stream)
  /\ upcoming (OpusStream_new op_open_callbacks mem stream)
     = decoded (of_pending file).
Proof.
  intros Hopen Hres Hch Hclean Hi.
  assert (Hi1 : intact (before_first_fill mem file)) by exact Hi.
  destruct (fillBuffer_valid (before_first_fill mem file) Hch Hclean)
    as (s2 & Hfill & _).
  destruct (fillBuffer_content (before_first_fill mem file) s2 Hch Hclean
              Hi1 Hfill) as [Hi2 Hup2].
  cbn [before_first_fill _file] in Hup2.
  rewrite new_unfold, Hopen.
  destruct (Z.ltb_spec result 0); [lia |].
  rewrite Hfill. cbn [negb].
  split; [exact Hi2 | exact Hup2].
Qed.

Lemma new_console mem stream result file :
  op_open_callbacks stream g_stream_callbacks = (result, file) ->
  0 <= result ->
  1 <= to_byte (op_channel_count file (-1)) ->
  clean (to_byte (op_channel_count file (-1))) 0 (of_pending file) = true ->
  _console (OpusStream_new op_open_callbacks mem stream)
  = if op_pcm_total file (-1) <? 0
    then _console mem
           ++ [warning "Could not determine length of Opus stream: "
                       (opusError (to_int32 (op_pcm_total file (-1))))]
    else _console mem.
Proof.
  intros Hopen Hres Hch Hclean.
  destruct (fillBuffer_valid (before_first_fill mem file) Hch Hclean)
    as (s2 & Hfill & _ & _ & _ & Hcon & _).
  assert (Htotal : op_pcm_total (_file s2) (-1) = op_pcm_total file (-1)).
  { unfold _fillBuffer in Hfill. cbn zeta in Hfill.
    destruct (fill_ok _); inversion Hfill; reflexivity. }
  rewrite new_unfold, Hopen.
  destruct (Z.ltb_spec result 0); [lia |].
  rewrite Hfill. cbn [negb _console]. rewrite Htotal, Hcon. reflexivity.
Qed.

(** X3: for a well-behaved stream that is not empty the factory returns a
    decoder, and reads that ask in all for at least as many samples as
    the stream has deliver every sample the codec decodes, once, in the
    order of decoding, after which the decoder reports the end of the
    data. *)
Theorem factory_round_trip mem stream result file reqs :
  op_open_callbacks stream g_stream_callbacks = (result, file) ->
  0 <= result ->
  1 <= to_byte (op_channel_count file (-1)) ->
  clean (to_byte (op_channel_count file (-1))) 0 (of_pending file) = true ->
  of_pending file <> [] ->
  intact mem ->
  Forall (fun n => 0 <= n) reqs ->
  total (to_byte (op_channel_count file (-1))) (of_pending file)
  <= sumZ reqs ->
  exists d s',
    makeOpusStream op_open_callbacks mem stream = Some d
    /\ readAll d reqs
       = Done (total (to_byte (op_channel_count file (-1))) (of_pending file),
               decoded (of_pending file), s')
    /\ endOfData s' = true.
Proof.
  intros Hopen Hres Hch Hclean Hne Hi Hreqs Hsum.
  destruct (new_valid op_open_callbacks mem stream result file Hopen Hres
              Hch Hclean) as [Hv Hav].
  destruct (new_content mem stream result file Hopen Hres Hch Hclean Hi)
    as [Hi' Hup].
  set (d := OpusStream_new op_open_callbacks mem stream) in *.
  assert (Hpos : 0 < total (to_byte (op_channel_count file (-1)))
                           (of_pending file)).
  { destruct (of_pending file) as [| e rest]; [congruence |].
    apply (total_positive _ _ _ _ Hch Hclean). }
  assert (He : endOfData d = false).
  { destruct (endOfData d) eqn:He; [| reflexivity].
    apply (endOfData_available d Hv) in He. lia. }
  destruct (readAll_valid reqs d Hv Hreqs)
    as (t & out & s' & Hall & Ht & _ & Hv' & Hav').
  destruct (readAll_content reqs d t out s' Hv Hi' Hreqs Hall) as [Hout _].
  assert (Htt : t = total (to_byte (op_channel_count file (-1)))
                          (of_pending file)) by lia.
  exists d, s'. split; [| split].
  - unfold makeOpusStream. fold d. rewrite He. reflexivity.
  - rewrite Hall, Hout, Hup, Htt. f_equal. f_equal. f_equal.
    apply firstn_all2.
    pose proof (clean_decoded_length _ _ _ Hclean). lia.
  - apply (endOfData_available s' Hv'). lia.
Qed.


(** X9: a total frame count the codec cannot give (a negative value) does
    not stop the construction: the factory returns the decoder, valid,
    with one warning on the console that carries the text [opusError]
    has for the value narrowed to an [int] (the value itself when an
    [int] holds it); the duration is computed from the negative value all
    the same, which gives 0 ms for every value above -48000. *)
Theorem length_query_failure_is_not_fatal mem stream result file :
  op_open_callbacks stream g_stream_callbacks = (result, file) ->
  0 <= result ->
  1 <= to_byte (op_channel_count file (-1)) ->
  clean (to_byte (op_channel_count file (-1))) 0 (of_pending file) = true ->
  of_pending file <> [] ->
  op_pcm_total file (-1) < 0 ->
  exists d,
    makeOpusStream op_open_callbacks mem stream = Some d
    /\ valid d
    /\ _console d
       = _console mem
           ++ [warning "Could not determine length of Opus stream: "
                       (opusError (to_int32 (op_pcm_total file (-1))))]
    /\ (- two31 <= op_pcm_total file (-1) ->
        _console d
        = _console mem
            ++ [warning "Could not determine length of Opus stream: "
                        (opusError (op_pcm_total file (-1)))])
    /\ getLength d
       = mkTimestamp (Z.quot (op_pcm_total file (-1)) 48000 * 1000) 48000
    /\ (-48000 < op_pcm_total file (-1) -> getLength d = mkTimestamp 0 48000).
Proof.
  intros Hopen Hres Hch Hclean Hne Hneg.
  destruct (new_valid op_open_callbacks mem stream result file Hopen Hres
              Hch Hclean) as [Hv Hav].
  pose proof (new_console mem stream result file Hopen Hres Hch Hclean)
    as Hcon.
  destruct (fillBuffer_valid (before_first_fill mem file) Hch Hclean)
    as (s2 & Hfill & _).
  pose proof (new_opened op_open_callbacks mem stream result file Hopen Hres)
    as Hnew.
  cbn zeta in Hnew. rewrite Hfill in Hnew. cbn [fst snd] in Hnew.
  destruct Hnew as (_ & _ & _ & _ & _ & Hlen & _).
  specialize (Hlen eq_refl).
  set (d := OpusStream_new op_open_callbacks mem stream) in *.
  assert (He : endOfData d = false).
  { destruct (endOfData d) eqn:He; [| reflexivity].
    apply (endOfData_available d Hv) in He.
    destruct (of_pending file) as [| e rest]; [congruence |].
    pose proof (total_positive _ _ _ _ Hch Hclean). lia. }
  assert (Hcon' : _console d
                  = _console mem
                      ++ [warning "Could not determine length of Opus stream: "
                            (opusError (to_int32 (op_pcm_total file (-1))))]).
  { rewrite Hcon. destruct (Z.ltb_spec (op_pcm_total file (-1)) 0);
      [reflexivity | lia]. }
  exists d. split; [| split; [| split; [| split; [| split]]]].
  - unfold makeOpusStream. fold d. rewrite He. reflexivity.
  - exact Hv.
  - exact Hcon'.
  - intros Hint. rewrite Hcon'.
    rewrite to_int32_small by (unfold two31 in *; lia). reflexivity.
  - exact Hlen.
  - intros Hsmall. unfold getLength. rewrite Hlen.
    replace (op_pcm_total file (-1)) with (- (- op_pcm_total file (-1)))
      by lia.
    rewrite Z.quot_opp_l by lia. rewrite Z.quot_small by lia. reflexivity.
Qed.

(** X10: the loop of [readBuffer] always ends: no sequence of reads and
    seeks on a decoder the constructor has built, whatever the source and
    whatever the codec reports, leaves a read spinning; each call returns
    or, for a read, stops at the fault. *)
Theorem decoder_never_spins mem stream cs :
  run convertTimeToStreamPos totalNumberOfFrames cs
      (OpusStream_new op_open_callbacks mem stream)
  <> NoProgress.
Proof.
  apply (run_progress op_open_callbacks). apply (new_near op_open_callbacks).
Qed.

End StreamFacts.

(** ** A hole, in general *)

Lemma to_int32_high x : two31 <= x < two32 -> to_int32 x = x - two32.
Proof.
  intros Hx. unfold to_int32. rewrite Z.mod_small by (unfold two31 in *; lia).
  destruct (Z.ltb_spec x two31); [lia | reflexivity].
Qed.

(** X6: a hole reported by the first decode call of a fill, for any
    channel count a byte holds: the fill logs it and returns true after
    that one call, with the end of the buffer 2^32 - 3 * channels samples
    past its start, and every later read that asks for a sample stops at
    the fault of a negative length. *)
Theorem hole_at_fill_start (s : OpusStream) (pcm : list Z)
    (rest : list op_event) :
  1 <= _channels s <= 255 ->
  of_pending (_file s) = mkEvent OP_HOLE pcm :: rest ->
  exists s',
    _fillBuffer s = (true, s')
    /\ of_pending (_file s') = rest
    /\ _pos s' = 0 /\ _bufferEnd s' = two32 - 3 * _channels s
    /\ _console s' = _console s ++ [hole_warning]
    /\ forall n, 0 < n -> readBuffer s' n = Fault.
Proof.
  intros Hch Hp. unfold _fillBuffer. cbn zeta.
  rewrite Hp, fill_loop_hole_first by exact Hch.
  cbn [fill_ok fill_samplesRead fill_buffer fill_pending fill_console].
  eexists. split; [reflexivity |].
  cbn [_file _pos _bufferEnd _console with_pending of_pending].
  repeat split.
  intros n Hn. unfold readBuffer. cbn [read_loop _pos _bufferEnd].
  destruct (Z.ltb_spec 0 n); [| lia].
  destruct (Z.ltb_spec 0 (0 + (two32 - 3 * _channels s)));
    [| unfold two32 in *; lia].
  cbn [andb]. cbn zeta.
  rewrite to_int32_high by (unfold two31, two32; lia).
  rewrite MIN_spec.
  destruct (Z.ltb_spec (Z.min (n - 0) (0 + (two32 - 3 * _channels s) - 0
                                        - two32)) 0);
    [reflexivity | lia].
Qed.

(** A fill runs through the packets of a well-behaved start of the trace
    that does not fill the buffer. *)
Lemma fill_loop_prefix ch tail pre :
  forall buf con n,
    1 <= ch -> 0 <= n ->
    clean ch n pre = true ->
    n + total ch pre < bufferSize ->
    Z.of_nat (List.length buf) = bufferSize ->
    exists buf',
      fill_loop ch (pre ++ tail) buf con n
      = fill_loop ch tail buf' con (n + total ch pre)
      /\ Z.of_nat (List.length buf') = bufferSize
      /\ firstn (Z.to_nat (n + total ch pre)) buf'
         = firstn (Z.to_nat n) buf ++ decoded pre.
Proof.
  induction pre as [| e pre IH]; intros buf con n Hch Hn Hc Hroom Hbuf.
  - exists buf. cbn [app total fold_right decoded map List.concat].
    rewrite Z.add_0_r, app_nil_r. auto.
  - pose proof Hc as Hc'. apply clean_cons in Hc'.
    destruct Hc' as (Hpos & Hfit & Hlen & Hrest).
    cbn [total fold_right] in Hroom |- *. fold (total ch pre) in Hroom |- *.
    assert (Hmul : 1 <= ev_result e * ch) by nia.
    assert (Hnn : 0 <= total ch pre)
      by (apply (total_nonneg ch pre _ Hch Hrest)).
    revert Hrest.
    destruct (Z.ltb_spec (n + ev_result e * ch) bufferSize); [| lia].
    intros Hrest.
    destruct (IH (store buf n (ev_pcm e)) con (n + ev_result e * ch) Hch
                 ltac:(lia) Hrest ltac:(lia)
                 ltac:(rewrite store_length by lia; exact Hbuf))
      as (buf' & Hrun & Hlen' & Hpre).
    exists buf'. cbn [app fill_loop].
    destruct (Z.ltb_spec n bufferSize); [| lia].
    destruct (after_read_cases ch n (ev_result e))
      as [[_ [Hneg' _]] | [[_ Hz] | [-> _]]]; try lia.
    assert (Hw : read_warning (ev_result e) = []).
    { unfold read_warning.
      destruct (Z.ltb_spec (ev_result e) 0); [lia | reflexivity]. }
    rewrite Hw, app_nil_r.
    rewrite to_uint32_small by (unfold two32, bufferSize in *; lia).
    rewrite Hrun, !Z.add_assoc. split; [reflexivity |].
    split; [exact Hlen' |].
    rewrite Hpre.
    replace (Z.to_nat (n + ev_result e * ch))
      with (Z.to_nat n + List.length (ev_pcm e))%nat by lia.
    rewrite store_prefix by lia.
    unfold decoded. cbn [map List.concat]. rewrite app_assoc. reflexivity.
Qed.

(** X7: a hole after some packets of a fill: the fill logs it and goes
    on, but with its count lowered by three samples per channel, so that
    the next packet is stored over the last three frames decoded before
    the hole.  What the decoder then delivers is the samples decoded
    before the hole without the last [3 * channels] of them, followed by
    the samples decoded after it. *)
Theorem hole_in_mid_fill (s : OpusStream) (pre post : list op_event) :
  1 <= _channels s -> intact s ->
  of_pending (_file s) = pre ++ mkEvent OP_HOLE [] :: post ->
  clean (_channels s) 0 pre = true ->
  3 * _channels s <= total (_channels s) pre < bufferSize ->
  clean (_channels s) (total (_channels s) pre - 3 * _channels s) post
  = true ->
  exists s',
    _fillBuffer s = (true, s')
    /\ valid s' /\ intact s'
    /\ _console s' = _console s ++ [hole_warning]
    /\ upcoming s'
       = firstn (Z.to_nat (total (_channels s) pre - 3 * _channels s))
                (decoded pre)
           ++ decoded post.
Proof.
  intros Hch Hi Hp Hpre Hroom Hpost.
  set (ch := _channels s) in *. set (m := total ch pre) in *.
  destruct (fill_loop_prefix ch (mkEvent OP_HOLE [] :: post) pre (_buffer s)
              (_console s) 0 Hch ltac:(lia) Hpre ltac:(lia) Hi)
    as (buf' & Hrun & Hlen' & Hcontent).
  rewrite Z.add_0_l in Hrun, Hcontent. fold m in Hrun, Hcontent.
  change (Z.to_nat 0) with 0%nat in Hcontent. cbn [firstn app] in Hcontent.
  rewrite fill_loop_hole_later in Hrun by (fold m; lia).
  rewrite store_nothing in Hrun.
  pose proof (fill_loop_clean ch post buf' (_console s ++ [hole_warning])
                (m - 3 * ch) Hch ltac:(lia) Hpost) as Hf.
  pose proof (fill_loop_content ch post buf' (_console s ++ [hole_warning])
                (m - 3 * ch) Hch ltac:(lia) Hpost Hlen') as Hc.
  cbn zeta in Hf, Hc.
  destruct Hf as (Hok & Hr & Hcl & Hcon & Hsum & Hzero).
  destruct Hc as [Hlenr Hcr].
  unfold _fillBuffer. cbn zeta. fold ch. rewrite Hp, Hrun, Hok.
  set (r := fill_loop ch post buf' (_console s ++ [hole_warning])
                      (m - 3 * ch)) in *.
  eexists. split; [reflexivity |].
  assert (Hfirst : firstn (Z.to_nat (m - 3 * ch)) buf'
                   = firstn (Z.to_nat (m - 3 * ch)) (decoded pre)).
  { rewrite <- Hcontent, firstn_firstn. f_equal. lia. }
  split; [| split; [| split]].
  - unfold valid. cbn [_channels _pos _bufferEnd _file with_pending of_pending].
    fold ch. repeat split; try assumption; lia.
  - exact Hlenr.
  - exact Hcon.
  - unfold upcoming, endOfData, buffered.
    cbn [_pos _bufferEnd _buffer _file with_pending of_pending].
    rewrite Z.add_0_l, Z.sub_0_r. change (Z.to_nat 0) with 0%nat.
    cbn [skipn]. rewrite <- Hfirst, <- Hcr.
    destruct (Z.leb_spec (fill_samplesRead r) 0) as [Hle | Hgt];
      [| reflexivity].
    assert (Hsr : fill_samplesRead r = m - 3 * ch) by lia.
    assert (Hnil : post = []) by (apply Hzero; exact Hsr).
    rewrite Hcr, Hnil.
    replace (m - 3 * ch) with 0 by lia. reflexivity.
Qed.

(** * Properties of the Tucker console *)

Module TuckerFacts.
Import Tucker.

(** ** Bits *)

Lemma land_lor_covered f g g' :
  Z.land g g' = g' -> Z.land (Z.lor f g) g' = g'.
Proof.
  intros Hsub. rewrite Z.land_lor_distr_l, Hsub.
  apply Z.bits_inj'. intros n Hn.
  rewrite Z.lor_spec, Z.land_spec.
  destruct (Z.testbit f n), (Z.testbit g' n); reflexivity.
Qed.

Lemma land_clear_covered f g g' :
  Z.land g g' = g' -> Z.land (Z.land f (Z.lnot g)) g' = 0.
Proof.
  intros Hsub. apply Z.bits_inj'. intros n Hn.
  assert (Hbit : Z.testbit g n && Z.testbit g' n = Z.testbit g' n)
    by (rewrite <- Z.land_spec, Hsub; reflexivity).
  rewrite !Z.land_spec, Z.lnot_spec, Z.bits_0 by exact Hn.
  destruct (Z.testbit f n), (Z.testbit g n), (Z.testbit g' n);
    cbn in *; congruence.
Qed.

Lemma land_lor_outside f g :
  Z.land (Z.lor f g) (Z.lnot g) = Z.land f (Z.lnot g).
Proof.
  apply Z.bits_inj'. intros n Hn.
  rewrite !Z.land_spec, Z.lor_spec, Z.lnot_spec by exact Hn.
  destruct (Z.testbit f n), (Z.testbit g n); reflexivity.
Qed.

Lemma land_clear_outside f g :
  Z.land (Z.land f (Z.lnot g)) (Z.lnot g) = Z.land f (Z.lnot g).
Proof.
  rewrite <- Z.land_assoc, Z.land_diag. reflexivity.
Qed.

(** A flag that shares no bit with [g] reads the same after bits of [g]
    have been set or cleared. *)
Lemma land_disjoint f f' g g' :
  Z.land g g' = 0 ->
  Z.land f' (Z.lnot g) = Z.land f (Z.lnot g) ->
  Z.land f' g' = Z.land f g'.
Proof.
  intros Hdis Hsame. apply Z.bits_inj'. intros n Hn.
  assert (Hbit : Z.testbit g n && Z.testbit g' n = false)
    by (rewrite <- Z.land_spec, Hdis; apply Z.bits_0).
  assert (Hs : Z.testbit (Z.land f' (Z.lnot g)) n
               = Z.testbit (Z.land f (Z.lnot g)) n) by (rewrite Hsame; reflexivity).
  rewrite !Z.land_spec, !Z.lnot_spec in Hs by exact Hn.
  rewrite !Z.land_spec.
  destruct (Z.testbit f n), (Z.testbit f' n), (Z.testbit g n),
    (Z.testbit g' n); cbn in *; congruence.
Qed.

(** All the bits of [a | b] are set exactly when those of [a] and those
    of [b] are. *)
Lemma land_lor_iff f a b :
  Z.land f (Z.lor a b) = Z.lor a b
  <-> Z.land f a = a /\ Z.land f b = b.
Proof.
  split.
  - intros Hall. split; apply Z.bits_inj'; intros n Hn;
      assert (Hbit : Z.testbit (Z.land f (Z.lor a b)) n
                     = Z.testbit (Z.lor a b) n) by (rewrite Hall; reflexivity);
      rewrite Z.land_spec, Z.lor_spec in Hbit; rewrite Z.land_spec;
      destruct (Z.testbit f n), (Z.testbit a n), (Z.testbit b n);
      cbn in *; congruence.
  - intros [Ha Hb]. rewrite Z.land_lor_distr_r, Ha, Hb. reflexivity.
Qed.

(** ** The handler, case by case *)

Lemma handler_query c cmd name table usage invert :
  _onOffHandler c [cmd; name] table usage invert
  = match find_type name table with
    | Some e => (true, report c e invert)
    | None => (true, debugPrintf c ("Usage: " ++ cmd ++ " " ++ usage ++ nl))
    end.
Proof. reflexivity. Qed.

Lemma handler_toggle c cmd name word table usage invert :
  _onOffHandler c [cmd; name; word] table usage invert
  = match find_type name table with
    | Some e =>
        let '(c1, on) := toggle c e word invert in
        let c2 := match callback e with
                  | Some m => call_method m c1 on
                  | None => c1
                  end in
        (negb (closeConsole e), report c2 e invert)
    | None => (true, debugPrintf c ("Usage: " ++ cmd ++ " " ++ usage ++ nl))
    end.
Proof. reflexivity. Qed.

Lemma find_type_name name table e :
  find_type name table = Some e -> type e = name.
Proof.
  induction table as [| e0 rest IH]; cbn [find_type]; [discriminate |].
  destruct (String.eqb_spec name (type e0)) as [Heq | _].
  - intros Hsome. inversion Hsome; subst. reflexivity.
  - exact IH.
Qed.

Lemma list_all_keeps c table invert :
  _flags (list_all c table invert) = _flags c
  /\ vm_calls (list_all c table invert) = vm_calls c.
Proof.
  revert c. induction table as [| e rest IH]; intros c; cbn [list_all];
    [auto |].
  destruct (IH (report c e invert)) as [Hf Hv]. rewrite Hf, Hv. auto.
Qed.

(** The flags after the toggle case, whatever the callback. *)
Lemma toggle_flags c cmd name word table usage invert e :
  find_type name table = Some e ->
  _flags (snd (_onOffHandler c [cmd; name; word] table usage invert))
  = _flags (fst (toggle c e word invert)).
Proof.
  intros Hfind. rewrite handler_toggle, Hfind.
  destruct (toggle c e word invert) as [c1 on].
  destruct (callback e) as [[] |]; reflexivity.
Qed.

(** What an entry whose bits are among those of [e] reads after [e] has
    been switched. *)
Lemma state_after_toggle c e e' word invert :
  Z.land (flag e) (flag e') = flag e' -> flag e' <> 0 ->
  word = "on"%string \/ word = "off"%string ->
  state_text (_flags (fst (toggle c e word invert))) e' invert = word.
Proof.
  intros Hsub Hnz [-> | ->]; unfold toggle, state_text;
    cbn [String.eqb Ascii.eqb Bool.eqb fst _flags andb]; destruct invert.
  - rewrite (land_clear_covered _ _ _ Hsub).
    destruct (Z.eqb_spec 0 (flag e')); [congruence | reflexivity].
  - rewrite (land_lor_covered _ _ _ Hsub), Z.eqb_refl. reflexivity.
  - rewrite (land_lor_covered _ _ _ Hsub), Z.eqb_refl. reflexivity.
  - rewrite (land_clear_covered _ _ _ Hsub).
    destruct (Z.eqb_spec 0 (flag e')); [congruence | reflexivity].
Qed.

(** ** Switching and asking *)

(** X14: switching a topic [on] or [off] and then asking: the command
    prints the topic with the word it was given and returns whether the
    console stays open (the negation of [closeConsole]); a later query of
    that topic, or of any topic whose flag bits are among those of the
    switched one, prints the same word.  This holds for plain and for
    inverted tables. *)
Theorem toggle_then_query c cmd name name' word e e' table usage invert :
  find_type name table = Some e ->
  find_type name' table = Some e' ->
  Z.land (flag e) (flag e') = flag e' ->
  flag e' <> 0 ->
  word = "on"%string \/ word = "off"%string ->
  let r := _onOffHandler c [cmd; name; word] table usage invert in
  fst r = negb (closeConsole e)
  /\ printed (snd r) = printed c ++ [name ++ ": " ++ word ++ nl]%string
  /\ _onOffHandler (snd r) [cmd; name'] table usage invert
     = (true, debugPrintf (snd r) (name' ++ ": " ++ word ++ nl)).
Proof.
  intros Hfind Hfind' Hsub Hnz Hword. cbn zeta.
  assert (Hnz_e : flag e <> 0).
  { intros Hz. rewrite Hz, Z.land_0_l in Hsub. congruence. }
  pose proof (state_after_toggle c e e word invert (Z.land_diag _) Hnz_e
                Hword) as Hown.
  pose proof (state_after_toggle c e e' word invert Hsub Hnz Hword) as Hother.
  pose proof (toggle_flags c cmd name word table usage invert e Hfind) as Hfl.
  rewrite handler_query, Hfind'. unfold report at 1. rewrite Hfl, Hother.
  rewrite (find_type_name _ _ _ Hfind').
  rewrite handler_toggle, Hfind.
  destruct (toggle c e word invert) as [c1 on] eqn:Htog.
  assert (Hp1 : printed c1 = printed c).
  { unfold toggle in Htog.
    destruct (String.eqb word "on"); [inversion Htog; reflexivity |].
    destruct (String.eqb word "off"); inversion Htog; reflexivity. }
  cbn [fst] in Hown.
  split; [reflexivity |]. split; [| reflexivity].
  rewrite <- (find_type_name _ _ _ Hfind).
  destruct (callback e) as [[] |]; cbn [snd report debugPrintf printed
    call_method _cmdAudioCallback _flags]; rewrite Hown, Hp1; reflexivity.
Qed.

(** X15: the toggle case changes no bit outside the flag of the topic it
    finds, whatever the third word is; a topic whose flag shares no bit
    with it is reported as before. *)
Theorem toggle_touches_only_its_bits c cmd name third e table usage invert :
  find_type name table = Some e ->
  let c' := snd (_onOffHandler c [cmd; name; third] table usage invert) in
  Z.land (_flags c') (Z.lnot (flag e)) = Z.land (_flags c) (Z.lnot (flag e))
  /\ forall e', Z.land (flag e) (flag e') = 0 ->
                state_text (_flags c') e' invert
                = state_text (_flags c) e' invert.
Proof.
  intros Hfind. cbn zeta.
  rewrite (toggle_flags c cmd name third table usage invert e Hfind).
  assert (Hout : Z.land (_flags (fst (toggle c e third invert)))
                        (Z.lnot (flag e))
                 = Z.land (_flags c) (Z.lnot (flag e))).
  { unfold toggle.
    destruct (String.eqb third "on");
      [| destruct (String.eqb third "off")];
      cbn [fst _flags]; try reflexivity;
      destruct invert;
      first [apply land_lor_outside | apply land_clear_outside]. }
  split; [exact Hout |].
  intros e' Hdis. unfold state_text.
  rewrite (land_disjoint _ _ _ _ Hdis Hout). reflexivity.
Qed.

Lemma queries_change_nothing_aux c argv table usage invert :
  List.length argv <> 3%nat
  \/ find_type (nth 1 argv EmptyString) table = None ->
  vm_calls (snd (_onOffHandler c argv table usage invert)) = vm_calls c.
Proof.
  intros Hcase. unfold _onOffHandler. cbn zeta.
  destruct (Z.eqb_spec (Z.of_nat (List.length argv)) 1).
  - cbn [snd]. apply list_all_keeps.
  - destruct (Z.eqb_spec (Z.of_nat (List.length argv)) 2).
    + destruct (find_type (nth 1 argv EmptyString) table); reflexivity.
    + destruct (Z.eqb_spec (Z.of_nat (List.length argv)) 3);
        [| reflexivity].
      destruct Hcase as [Hlen | Hnone]; [lia |].
      rewrite Hnone. reflexivity.
Qed.

(** X16: listing all topics, asking for one topic, naming a topic the
    table does not have, or giving a number of words the handler has no
    case for changes neither the flags nor anything in the engine, and
    the console stays open. *)
Theorem queries_change_nothing c argv table usage invert :
  List.length argv <> 3%nat
  \/ find_type (nth 1 argv EmptyString) table = None ->
  let r := _onOffHandler c argv table usage invert in
  fst r = true
  /\ _flags (snd r) = _flags c
  /\ vm_calls (snd r) = vm_calls c.
Proof.
  intros Hcase. cbn zeta. unfold _onOffHandler. cbn zeta.
  destruct (Z.eqb_spec (Z.of_nat (List.length argv)) 1).
  - cbn [fst snd]. destruct (list_all_keeps c table invert). auto.
  - destruct (Z.eqb_spec (Z.of_nat (List.length argv)) 2).
    + destruct (find_type (nth 1 argv EmptyString) table); cbn; auto.
    + destruct (Z.eqb_spec (Z.of_nat (List.length argv)) 3);
        [| cbn; auto].
      destruct Hcase as [Hlen | Hnone]; [lia |].
      rewrite Hnone. cbn. auto.
Qed.

(** ** The topic [all] *)

Lemma append_same_start (a x y : string) :
  (a ++ x = a ++ y)%string -> x = y.
Proof.
  induction a as [| ch a IH]; cbn [String.append]; intros Heq;
    [exact Heq |].
  inversion Heq. auto.
Qed.

Lemma last_line_report c e invert :
  last_line (report c e invert)
  = (type e ++ ": " ++ state_text (_flags c) e invert ++ nl)%string.
Proof. unfold last_line, report, debugPrintf. cbn [printed]. apply last_last. Qed.

(** X17: what [all] answers.  [box all] prints "on" exactly when each of
    the four box topics prints "on"; [show all], whose table is inverted,
    prints "off" exactly when each of the four show topics prints "off",
    and so prints "on" as soon as one of them is shown. *)
Theorem all_answers c cmd :
  (last_line (snd (cmdBox c [cmd; "all"])) = ("all: on" ++ nl)
   <-> forall name,
         In name ["bud"; "sprites"; "animations"; "text"] ->
         last_line (snd (cmdBox c [cmd; name])) = (name ++ ": on" ++ nl))%string
  /\ (last_line (snd (cmdShow c [cmd; "all"])) = ("all: off" ++ nl)
      <-> forall name,
            In name ["bud"; "sprites"; "animations"; "text"] ->
            last_line (snd (cmdShow c [cmd; name]))
            = (name ++ ": off" ++ nl))%string.
Proof.
  assert (Hbox : Z.land (_flags c) fBoxAll = fBoxAll
                 <-> ((Z.land (_flags c) fBoxBud = fBoxBud
                       /\ Z.land (_flags c) fBoxSprites = fBoxSprites)
                      /\ Z.land (_flags c) fBoxAnimations = fBoxAnimations)
                     /\ Z.land (_flags c) fBoxText = fBoxText).
  { unfold fBoxAll. rewrite !land_lor_iff. reflexivity. }
  assert (Hshow : Z.land (_flags c) fHideAll = fHideAll
                  <-> ((Z.land (_flags c) fHideBud = fHideBud
                        /\ Z.land (_flags c) fHideSprites = fHideSprites)
                       /\ Z.land (_flags c) fHideAnimations = fHideAnimations)
                      /\ Z.land (_flags c) fHideText = fHideText).
  { unfold fHideAll. rewrite !land_lor_iff. reflexivity. }
  assert (Hon : forall name flg,
             last_line (report c (mkCommand name flg true None) false)
             = (name ++ ": on" ++ nl)%string
             <-> Z.land (_flags c) flg = flg).
  { intros name flg. rewrite last_line_report. unfold state_text.
    cbn [type flag].
    destruct (Z.eqb_spec (Z.land (_flags c) flg) flg) as [Heq | Hne];
      split; intros Hx; try assumption; try reflexivity; exfalso.
    - apply append_same_start in Hx. discriminate Hx.
    - contradiction. }
  assert (Hoff : forall name flg,
             last_line (report c (mkCommand name flg true None) true)
             = (name ++ ": off" ++ nl)%string
             <-> Z.land (_flags c) flg = flg).
  { intros name flg. rewrite last_line_report. unfold state_text.
    cbn [type flag].
    destruct (Z.eqb_spec (Z.land (_flags c) flg) flg) as [Heq | Hne];
      split; intros Hx; try assumption; try reflexivity; exfalso.
    - apply append_same_start in Hx. discriminate Hx.
    - contradiction. }
  split.
  - change (snd (cmdBox c [cmd; "all"%string]))
      with (report c (mkCommand "all" fBoxAll true None) false).
    rewrite Hon, Hbox. split.
    + intros (((Hb & Hs) & Ha) & Ht) name Hin. cbn [In] in Hin.
      destruct Hin as [<- | [<- | [<- | [<- | []]]]].
      * change (snd (cmdBox c [cmd; "bud"%string]))
          with (report c (mkCommand "bud" fBoxBud true None) false).
        apply Hon, Hb.
      * change (snd (cmdBox c [cmd; "sprites"%string]))
          with (report c (mkCommand "sprites" fBoxSprites true None) false).
        apply Hon, Hs.
      * change (snd (cmdBox c [cmd; "animations"%string]))
          with (report c (mkCommand "animations" fBoxAnimations true None)
                       false).
        apply Hon, Ha.
      * change (snd (cmdBox c [cmd; "text"%string]))
          with (report c (mkCommand "text" fBoxText true None) false).
        apply Hon, Ht.
    + intros Hall. repeat split.
      * apply (Hon "bud"%string). apply (Hall "bud"%string). cbn. auto.
      * apply (Hon "sprites"%string). apply (Hall "sprites"%string).
        cbn. auto.
      * apply (Hon "animations"%string). apply (Hall "animations"%string).
        cbn. auto.
      * apply (Hon "text"%string). apply (Hall "text"%string). cbn. auto.
  - change (snd (cmdShow c [cmd; "all"%string]))
      with (report c (mkCommand "all" fHideAll true None) true).
    rewrite Hoff, Hshow. split.
    + intros (((Hb & Hs) & Ha) & Ht) name Hin. cbn [In] in Hin.
      destruct Hin as [<- | [<- | [<- | [<- | []]]]].
      * change (snd (cmdShow c [cmd; "bud"%string]))
          with (report c (mkCommand "bud" fHideBud true None) true).
        apply Hoff, Hb.
      * change (snd (cmdShow c [cmd; "sprites"%string]))
          with (report c (mkCommand "sprites" fHideSprites true None) true).
        apply Hoff, Hs.
      * change (snd (cmdShow c [cmd; "animations"%string]))
          with (report c (mkCommand "animations" fHideAnimations true None)
                       true).
        apply Hoff, Ha.
      * change (snd (cmdShow c [cmd; "text"%string]))
          with (report c (mkCommand "text" fHideText true None) true).
        apply Hoff, Ht.
    + intros Hall. repeat split.
      * apply (Hoff "bud"%string). apply (Hall "bud"%string). cbn. auto.
      * apply (Hoff "sprites"%string). apply (Hall "sprites"%string).
        cbn. auto.
      * apply (Hoff "animations"%string). apply (Hall "animations"%string).
        cbn. auto.
      * apply (Hoff "text"%string). apply (Hall "text"%string). cbn. auto.
Qed.

(** ** Sounds *)

(** X18: every toggle of a topic of the [audio] command stops the sounds
    of the engine and starts them again, once, also when the third word
    is neither "on" nor "off"; the [show] and [box] commands never call
    the engine. *)
Theorem audio_restarts_sounds c cmd name third argv :
  In name ["sound"; "music"; "speech"; "all"]%string ->
  vm_calls (snd (cmdAudio c [cmd; name; third]))
  = vm_calls c ++ [stopSounds; playSounds]
  /\ vm_calls (snd (cmdShow c argv)) = vm_calls c
  /\ vm_calls (snd (cmdBox c argv)) = vm_calls c.
Proof.
  intros Hin.
  assert (Htog : forall e w inv, vm_calls (fst (toggle c e w inv))
                                 = vm_calls c).
  { intros e w inv. unfold toggle.
    destruct (String.eqb w "on");
      [| destruct (String.eqb w "off")]; reflexivity. }
  assert (Hquiet : forall table usage invert,
             Forall (fun e => callback e = None) table ->
             vm_calls (snd (_onOffHandler c argv table usage invert))
             = vm_calls c).
  { intros table usage invert Hnone.
    destruct (Nat.eq_dec (List.length argv) 3) as [Hlen | Hlen];
      [| apply queries_change_nothing_aux; left; exact Hlen].
    destruct argv as [| a0 [| a1 [| a2 [| a3 rest]]]]; try discriminate.
    rewrite handler_toggle.
    destruct (find_type a1 table) as [e |] eqn:Hfind; [| reflexivity].
    assert (Hcb : callback e = None).
    { clear - Hfind Hnone. induction Hnone as [| e0 rest He0 _ IH];
        cbn [find_type] in Hfind; [discriminate |].
      destruct (String.eqb a1 (type e0)); [congruence | auto]. }
    rewrite Hcb. pose proof (Htog e a2 invert) as Ht.
    destruct (toggle c e a2 invert) as [c1 on]. exact Ht. }
  split; [| split].
  - unfold cmdAudio. rewrite handler_toggle.
    cbn [In] in Hin.
    destruct Hin as [<- | [<- | [<- | [<- | []]]]];
      cbn [find_type audioTable String.eqb Ascii.eqb Bool.eqb type andb];
      match goal with
      | |- context [toggle c ?e third true] =>
          pose proof (Htog e third true) as Ht;
          destruct (toggle c e third true) as [c1 on]
      end;
      cbn [callback call_method _cmdAudioCallback snd report debugPrintf
             vm_calls fst] in *; rewrite Ht; reflexivity.
  - apply Hquiet. unfold showTable. repeat constructor.
  - apply Hquiet. unfold boxTable. repeat constructor.
Qed.

End TuckerFacts.

(** * Properties of the save file names *)

Module ParallactionFacts.
Import Parallaction.

Lemma string_length_append (a b : string) :
  String.length (a ++ b) = (String.length a + String.length b)%nat.
Proof.
  induction a as [| ch a IH]; cbn [String.append String.length Nat.add];
    [reflexivity |].
  rewrite IH. reflexivity.
Qed.

Lemma append_same_prefix (a x y : string) :
  (a ++ x = a ++ y)%string -> x = y.
Proof.
  induction a as [| ch a IH]; cbn [String.append]; intros Heq;
    [exact Heq |].
  inversion Heq. auto.
Qed.

Lemma slot_in_slots u :
  0 <= u -> u < NUM_SAVESLOTS \/ u = SPECIAL_SAVESLOT -> In u slots.
Proof.
  unfold NUM_SAVESLOTS, SPECIAL_SAVESLOT, slots. intros Hnn [Hlt | ->].
  - right. replace u with (Z.of_nat (Z.to_nat u)) by lia.
    apply in_map, in_seq. lia.
  - left. reflexivity.
Qed.

Lemma print_u_three u : In u slots -> String.length (print_u 3 u) = 3%nat.
Proof.
  assert (Hall : forallb (fun v => Nat.eqb (String.length (print_u 3 v)) 3)
                         slots = true) by (vm_compute; reflexivity).
  intros Hin. apply Nat.eqb_eq.
  apply (proj1 (forallb_forall _ _) Hall u Hin).
Qed.

Lemma print_u_distinct a b :
  In a slots -> In b slots -> print_u 3 a = print_u 3 b -> a = b.
Proof.
  assert (Hall : forallb
                   (fun v => forallb
                      (fun w => implb (String.eqb (print_u 3 v) (print_u 3 w))
                                      (v =? w))
                      slots)
                   slots = true) by (vm_compute; reflexivity).
  intros Ha Hb Heq.
  pose proof (proj1 (forallb_forall _ _) Hall a Ha) as Hrow.
  pose proof (proj1 (forallb_forall _ _) Hrow b Hb) as Hcell.
  cbv beta in Hcell. rewrite Heq, String.eqb_refl in Hcell.
  apply Z.eqb_eq. exact Hcell.
Qed.

(** The [assert], as a proposition on the slot as the function has it. *)
Lemma assert_passes slot :
  (to_uint32 slot <? NUM_SAVESLOTS) || (to_uint32 slot =? SPECIAL_SAVESLOT)
  = true
  <-> to_uint32 slot < NUM_SAVESLOTS \/ to_uint32 slot = SPECIAL_SAVESLOT.
Proof.
  rewrite orb_true_iff, Z.ltb_lt, Z.eqb_eq. reflexivity.
Qed.

(** X19: two slots that get a name get different names, whatever the
    prefix: the ordinary slots 0 to 99 among themselves and against the
    special slot 999. *)
Theorem genSaveFileName_distinct (prefix : string) (a b : Z) (x : string) :
  genSaveFileName prefix a = Name x ->
  genSaveFileName prefix b = Name x ->
  to_uint32 a = to_uint32 b.
Proof.
  unfold genSaveFileName. cbn zeta. intros Ha Hb.
  destruct ((to_uint32 a <? NUM_SAVESLOTS) || (to_uint32 a =? SPECIAL_SAVESLOT))
    eqn:Hva; cbn [negb] in Ha; [| discriminate].
  destruct ((to_uint32 b <? NUM_SAVESLOTS) || (to_uint32 b =? SPECIAL_SAVESLOT))
    eqn:Hvb; cbn [negb] in Hb; [| discriminate].
  destruct (20 <? _) in Ha; [discriminate |].
  destruct (20 <? _) in Hb; [discriminate |].
  inversion Ha as [Hxa]. inversion Hb as [Hxb]. rewrite <- Hxb in Hxa.
  apply append_same_prefix in Hxa. cbn [String.append] in Hxa.
  inversion Hxa as [Hdigits].
  apply assert_passes in Hva. apply assert_passes in Hvb.
  apply print_u_distinct; try assumption;
    apply slot_in_slots; try assumption; apply to_uint32_range.
Qed.

Lemma print_u_digits u : In u slots -> print_u 3 u = three_digits u.
Proof.
  assert (Hall : forallb (fun v => String.eqb (print_u 3 v) (three_digits v))
                         slots = true) by (vm_compute; reflexivity).
  intros Hin. apply String.eqb_eq.
  apply (proj1 (forallb_forall _ _) Hall u Hin).
Qed.

(** X20: when [genSaveFileName] returns.  For a slot the [assert] lets
    through (0 to 99, or 999) and a prefix of at most 15 characters it
    returns the prefix, a dot and the slot in three decimal digits,
    hundreds first, with leading zeros; with a longer prefix [sprintf]
    overruns the 20 bytes of its buffer; for every other slot, a negative
    [int] included, the [assert] fails. *)
Theorem genSaveFileName_returns (prefix : string) (slot : Z) :
  let ok := to_uint32 slot < NUM_SAVESLOTS
            \/ to_uint32 slot = SPECIAL_SAVESLOT in
  (ok -> (String.length prefix <= 15)%nat ->
   genSaveFileName prefix slot
   = Name (prefix ++ "." ++ three_digits (to_uint32 slot)))
  /\ (ok -> (15 < String.length prefix)%nat ->
      genSaveFileName prefix slot = BufferOverrun)
  /\ (~ ok -> genSaveFileName prefix slot = AssertionFailed).
Proof.
  cbn zeta. unfold genSaveFileName. cbn zeta.
  pose proof (assert_passes slot) as Hassert.
  destruct ((to_uint32 slot <? NUM_SAVESLOTS)
            || (to_uint32 slot =? SPECIAL_SAVESLOT)) eqn:Hv; cbn [negb].
  - assert (Hok : to_uint32 slot < NUM_SAVESLOTS
                  \/ to_uint32 slot = SPECIAL_SAVESLOT)
      by (apply Hassert; reflexivity).
    assert (Hin : In (to_uint32 slot) slots)
      by (apply slot_in_slots; [apply to_uint32_range | exact Hok]).
    rewrite (print_u_digits _ Hin).
    assert (Hlen : String.length
                     (prefix ++ "." ++ three_digits (to_uint32 slot))
                   = (String.length prefix + 4)%nat).
    { rewrite !string_length_append. unfold three_digits.
      cbn [String.length]. lia. }
    rewrite Hlen.
    split; [| split].
    + intros _ Hshort.
      destruct (Z.ltb_spec 20 (Z.of_nat (String.length prefix + 4) + 1));
        [lia | reflexivity].
    + intros _ Hlong.
      destruct (Z.ltb_spec 20 (Z.of_nat (String.length prefix + 4) + 1));
        [reflexivity | lia].
    + intros Hnot. contradiction.
  - split; [| split].
    + intros Hok. apply Hassert in Hok. discriminate.
    + intros Hok. apply Hassert in Hok. discriminate.
    + reflexivity.
Qed.

End ParallactionFacts.

(** * The further properties at work on the examples *)

Lemma half_second_intact :
  intact (Demo.open_stream Demo.half_second Demo.good_source).
Proof. vm_compute. reflexivity. Qed.

Lemma readBuffer_in_order_witness :
  exists k out s',
    readBuffer (Demo.open_stream Demo.half_second Demo.good_source) 100
    = Done (k, out, s')
    /\ k = 100 /\ out = repeat 5 100.
Proof.
  destruct half_second_valid as [Hv Hav].
  destruct (readBuffer_in_order _ 100 Hv half_second_intact)
    as (k & out & s' & Hread & Hk & Hout & _).
  rewrite Hav in Hk. assert (Hk' : k = 100) by lia.
  exists k, out, s'. split; [exact Hread |]. split; [exact Hk' |].
  rewrite Hout, Hk'. vm_compute. reflexivity.
Defined.

Lemma readBuffer_chunks_witness :
  exists k1 o1 s1 k2 o2 s2 s3,
    readBuffer (Demo.open_stream Demo.half_second Demo.good_source) 11000
    = Done (k1, o1, s1)
    /\ readBuffer s1 1000 = Done (k2, o2, s2)
    /\ readBuffer (Demo.open_stream Demo.half_second Demo.good_source)
                  (11000 + 1000)
       = Done (k1 + k2, o1 ++ o2, s3)
    /\ upcoming s3 = upcoming s2.
Proof.
  destruct half_second_valid as [Hv _].
  apply (readBuffer_chunks _ 11000 1000 Hv half_second_intact); lia.
Defined.

Lemma factory_round_trip_witness :
  exists d s',
    makeOpusStream (Demo.open_oggs Demo.half_second) Demo.raw Demo.good_source
    = Some d
    /\ readAll d [20000; 20000; 20000]
       = Done (total 2 (of_pending Demo.half_second),
               decoded (of_pending Demo.half_second), s')
    /\ endOfData s' = true.
Proof.
  apply (factory_round_trip (Demo.open_oggs Demo.half_second) Demo.raw
           Demo.good_source 0 Demo.half_second [20000; 20000; 20000]
           half_second_opens).
  - lia.
  - vm_compute. discriminate.
  - vm_compute. reflexivity.
  - discriminate.
  - vm_compute. reflexivity.
  - repeat constructor; lia.
  - vm_compute. discriminate.
Defined.


Lemma fillBuffer_error_poisons_witness :
  exists s',
    _fillBuffer (before_first_fill Demo.raw Demo.bad_between) = (false, s')
    /\ endOfData s' = true
    /\ of_pending (_file s') = [Demo.packet 2 960 6]
    /\ _console s'
       = ["Error reading from Opus stream: Failed to decode audio packet"%string]
    /\ forall n, readBuffer s' n = Done (0, [], s').
Proof.
  apply (fillBuffer_error_poisons (before_first_fill Demo.raw Demo.bad_between)
           [Demo.packet 2 960 5] Demo.bad_packet [Demo.packet 2 960 6]).
  - vm_compute. discriminate.
  - reflexivity.
  - vm_compute. reflexivity.
  - vm_compute. reflexivity.
  - vm_compute. reflexivity.
  - vm_compute. discriminate.
Defined.

Lemma hole_at_fill_start_witness :
  exists s',
    _fillBuffer (before_first_fill Demo.raw Demo.hole_first) = (true, s')
    /\ of_pending (_file s') = repeat (Demo.packet 2 960 5) 3
    /\ _pos s' = 0 /\ _bufferEnd s' = two32 - 3 * 2
    /\ _console s' = [hole_warning]
    /\ forall n, 0 < n -> readBuffer s' n = Fault.
Proof.
  apply (hole_at_fill_start (before_first_fill Demo.raw Demo.hole_first) []
           (repeat (Demo.packet 2 960 5) 3)).
  - vm_compute. split; discriminate.
  - reflexivity.
Defined.

Lemma hole_in_mid_fill_witness :
  exists s',
    _fillBuffer (before_first_fill Demo.raw Demo.hole_between) = (true, s')
    /\ valid s' /\ intact s'
    /\ _console s' = [hole_warning]
    /\ upcoming s' = repeat 5 1914 ++ repeat 6 1920.
Proof.
  destruct (hole_in_mid_fill (before_first_fill Demo.raw Demo.hole_between)
              [Demo.packet 2 960 5] [Demo.packet 2 960 6])
    as (s' & Hfill & Hv & Hi & Hcon & Hup).
  - vm_compute. discriminate.
  - vm_compute. reflexivity.
  - reflexivity.
  - vm_compute. reflexivity.
  - vm_compute. split; [discriminate | reflexivity].
  - vm_compute. reflexivity.
  - exists s'. split; [exact Hfill |]. split; [exact Hv |].
    split; [exact Hi |]. split; [exact Hcon |].
    rewrite Hup. vm_compute. reflexivity.
Defined.

Lemma getLength_whole_seconds_witness :
  getLength (Demo.open_stream Demo.half_second Demo.good_source)
  = mkTimestamp (Z.quot 24000 48000 * 1000) 48000.
Proof.
  apply (getLength_whole_seconds (Demo.open_oggs Demo.half_second) Demo.raw
           Demo.good_source 0 Demo.half_second half_second_opens).
  - lia.
  - vm_compute. reflexivity.
Defined.

Lemma length_query_failure_is_not_fatal_witness :
  exists d,
    makeOpusStream (Demo.open_oggs Demo.no_total) Demo.raw Demo.good_source
    = Some d
    /\ valid d
    /\ _console d
       = ["Could not determine length of Opus stream: One or more parameters to a function were invalid"%string]
    /\ getLength d = mkTimestamp 0 48000.
Proof.
  destruct (length_query_failure_is_not_fatal (Demo.open_oggs Demo.no_total)
              Demo.raw Demo.good_source 0 Demo.no_total)
    as (d & Hmake & Hv & Hcon & _ & _ & Hzero).
  - reflexivity.
  - lia.
  - vm_compute. discriminate.
  - vm_compute. reflexivity.
  - discriminate.
  - vm_compute. reflexivity.
  - exists d. split; [exact Hmake |]. split; [exact Hv |].
    split; [exact Hcon |]. apply Hzero. vm_compute. reflexivity.
Defined.


Lemma readBuffer_returns_witness :
  match readBuffer (Demo.open_stream Demo.hole_between Demo.good_source) 5000
  with
  | Done (k, out, _) =>
      0 <= k <= Z.max 0 5000 /\ Z.of_nat (List.length out) = k
  | _ => False
  end.
Proof.
  destruct (readBuffer (Demo.open_stream Demo.hole_between Demo.good_source)
                       5000) as [[[k out] s'] | |] eqn:Hread.
  - apply (readBuffer_returns _ _ _ _ _ Hread).
  - vm_compute in Hread. discriminate Hread.
  - vm_compute in Hread. discriminate Hread.
Defined.

Lemma toggle_then_query_witness :
  Tucker.cmdShow
    (snd (Tucker.cmdShow Tucker.fresh ["show"; "all"; "off"]%string))
    ["show"; "bud"]%string
  = (true,
     Tucker.debugPrintf
       (snd (Tucker.cmdShow Tucker.fresh ["show"; "all"; "off"]%string))
       ("bud" ++ ": " ++ "off" ++ Tucker.nl)%string).
Proof.
  apply (TuckerFacts.toggle_then_query Tucker.fresh "show" "all" "bud" "off"
           (Tucker.mkCommand "all" Tucker.fHideAll true None)
           (Tucker.mkCommand "bud" Tucker.fHideBud true None)
           Tucker.showTable
           "<bud|sprites|animations|text|all> [on|off]" true).
  - reflexivity.
  - reflexivity.
  - reflexivity.
  - vm_compute. discriminate.
  - right. reflexivity.
Defined.

Lemma toggle_touches_only_its_bits_witness :
  Tucker.state_text
    (Tucker._flags
       (snd (Tucker.cmdBox
               (snd (Tucker.cmdBox Tucker.fresh ["box"; "text"; "on"]%string))
               ["box"; "bud"; "on"]%string)))
    (Tucker.mkCommand "text" Tucker.fBoxText true None) false
  = "on"%string.
Proof.
  unfold Tucker.cmdBox at 1.
  rewrite (proj2 (TuckerFacts.toggle_touches_only_its_bits
                    (snd (Tucker.cmdBox Tucker.fresh
                                        ["box"; "text"; "on"]%string))
                    "box" "bud" "on"
                    (Tucker.mkCommand "bud" Tucker.fBoxBud true None)
                    Tucker.boxTable
                    "<bud|sprites|animations|text|all> [on|off]" false
                    eq_refl)
                 (Tucker.mkCommand "text" Tucker.fBoxText true None)
                 eq_refl).
  reflexivity.
Defined.

Lemma queries_change_nothing_witness :
  fst (Tucker.cmdAudio Tucker.fresh ["audio"; "noise"; "off"]%string) = true
  /\ Tucker._flags
       (snd (Tucker.cmdAudio Tucker.fresh ["audio"; "noise"; "off"]%string))
     = Tucker.fDebugNone
  /\ Tucker.vm_calls
       (snd (Tucker.cmdAudio Tucker.fresh ["audio"; "noise"; "off"]%string))
     = [].
Proof.
  apply (TuckerFacts.queries_change_nothing Tucker.fresh
           ["audio"; "noise"; "off"]%string Tucker.audioTable
           "<sound|music|speech|all> [on|off]" true).
  right. reflexivity.
Defined.

Lemma audio_restarts_sounds_witness :
  Tucker.vm_calls
    (snd (Tucker.cmdAudio Tucker.fresh ["audio"; "music"; "maybe"]%string))
  = [Tucker.stopSounds; Tucker.playSounds].
Proof.
  apply (proj1 (TuckerFacts.audio_restarts_sounds Tucker.fresh "audio"
                  "music" "maybe" []
                  (or_intror (or_introl eq_refl)))).
Defined.

Lemma genSaveFileName_distinct_witness :
  to_uint32 5 = to_uint32 4294967301.
Proof.
  apply (ParallactionFacts.genSaveFileName_distinct "nippon" 5 4294967301
           "nippon.005"); reflexivity.
Defined.

Lemma genSaveFileName_returns_witness :
  Parallaction.genSaveFileName "nippon" 7 = Parallaction.Name "nippon.007"
  /\ Parallaction.genSaveFileName "nippon" 999
     = Parallaction.Name "nippon.999"
  /\ Parallaction.genSaveFileName "a-rather-long-name" 7
     = Parallaction.BufferOverrun
  /\ Parallaction.genSaveFileName "nippon" (-1)
     = Parallaction.AssertionFailed.
Proof.
  split; [| split; [| split]].
  - apply (proj1 (ParallactionFacts.genSaveFileName_returns "nippon" 7)).
    + left. vm_compute. reflexivity.
    + cbn. lia.
  - apply (proj1 (ParallactionFacts.genSaveFileName_returns "nippon" 999)).
    + right. vm_compute. reflexivity.
    + cbn. lia.
  - apply (proj1 (proj2 (ParallactionFacts.genSaveFileName_returns
                           "a-rather-long-name" 7))).
    + left. vm_compute. reflexivity.
    + cbn. lia.
  - apply (proj2 (proj2 (ParallactionFacts.genSaveFileName_returns
                           "nippon" (-1)))).
    vm_compute. intros [Hlt | Heq]; discriminate.
Defined.

(** * The factory and a hole at the start of the stream *)

(** With the end of the buffer 2^31 samples or more past the cursor, the
    length of the copy is negative as an [int]. *)
Lemma readBuffer_fault_wide s n :
  0 < n ->
  two31 <= _bufferEnd s - _pos s < two32 ->
  readBuffer s n = Fault.
Proof.
  intros Hn Hgap. unfold readBuffer. cbn [read_loop].
  destruct (Z.ltb_spec 0 n); [| lia].
  destruct (Z.ltb_spec (_pos s) (_bufferEnd s));
    [| unfold two31 in *; lia].
  cbn [andb]. cbn zeta.
  rewrite to_int32_high by exact Hgap. rewrite MIN_spec.
  destruct (Z.ltb_spec (Z.min (n - 0) (_bufferEnd s - _pos s - two32)) 0);
    [reflexivity | lia].
Qed.

(** C5, on the stream [Demo.hole_first] (stereo; the first decode call
    reports a hole, the three that would follow succeed): the decoder the
    constructor builds does not report the end of the data, so the factory
    returns it and not the null pointer; three packets are still to be
    decoded; but the decoder is not in working order, and every read that
    asks for a sample stops at the fault of a negative length: the caller
    has received a decoder that delivers no audio. *)
Theorem factory_returns_faulting_decoder :
  exists d,
    makeOpusStream (Demo.open_oggs Demo.hole_first) Demo.raw Demo.good_source
    = Some d
    /\ endOfData d = false
    /\ of_pending (_file d) = repeat (Demo.packet 2 960 5) 3
    /\ ~ valid d
    /\ forall n, 0 < n -> readBuffer d n = Fault.
Proof.
  exists (Demo.open_stream Demo.hole_first Demo.good_source).
  split; [vm_compute; reflexivity |].
  split; [vm_compute; reflexivity |].
  split; [vm_compute; reflexivity |].
  split.
  - intros (_ & _ & Hend & _). vm_compute in Hend. apply Hend. reflexivity.
  - intros n Hn. apply readBuffer_fault_wide; [exact Hn |].
    vm_compute. split; [discriminate | reflexivity].
Qed.
